(** * scc: the processor package (processor/processor.go)

    A shallow embedding of [ProcessConstants], [processFlags],
    [loadDatabase], [printLanguages] and [Process], and the properties of
    the language-feature compilation and of the pipeline set-up.

    Go strings are byte sequences: they are modelled by [string] (a list
    of 8-bit characters); a [byte] is a [Z] in [0, 256).  Go maps are
    [gmap]s; the order in which [range] enumerates a map is chosen by the
    runtime and is an explicit input of the model. *)

From Stdlib Require Import ZArith Ascii String List Lia.
From stdpp Require Import base option list gmap strings fin_maps.

Local Open Scope Z_scope.
Local Open Scope string_scope.
Local Open Scope list_scope.

(** ** Bytes and strings *)

Definition byte_of_ascii (c : ascii) : Z := Z.of_N (N_of_ascii c).

(** [[]byte(s)] *)
Definition to_bytes (s : string) : list Z :=
  byte_of_ascii <$> list_ascii_of_string s.

(** [s[0]] on a string: the first byte; Go panics with an index out of
    range on the empty string, which is [None] here. *)
Definition string_index0 (s : string) : option Z :=
  match s with
  | EmptyString => None
  | String c _ => Some (byte_of_ascii c)
  end.

(** [strings.Join(l, sep)] *)
Fixpoint strings_Join (l : list string) (sep : string) : string :=
  match l with
  | [] => EmptyString
  | [x] => x
  | x :: l' => String.append x (String.append sep (strings_Join l' sep))
  end.

(** ** Token types and tries *)

(** The token-type constants the source passes to the trie.  Their
    declaration is outside processor.go; the four names it uses are
    modelled as an enumeration. *)
Inductive TokenType : Type :=
  | T_STRING
  | T_SLCOMMENT
  | T_MLCOMMENT
  | T_COMPLEXITY.

#[global] Instance TokenType_eq_dec : EqDecision TokenType.
Proof. solve_decision. Defined.

Module Trie.

(** Modelled from the spec: the [Trie] type and its methods [Insert] and
    [InsertClose] are declared outside processor.go.  The spec says that
    [Insert(tag, token)] inserts a plain token path ending in [tag] and
    that [InsertClose(tag, openToken, closeToken)] inserts the opener's
    path and attaches the closer to its terminal node.  A trie is
    represented by the sequence of insertions performed on it, oldest
    first; [&Trie{}] is the empty sequence. *)
Inductive call : Type :=
  | InsertCall (tokenType : TokenType) (token : list Z)
  | InsertCloseCall (tokenType : TokenType) (openToken closeToken : list Z).

Definition t : Type := list call.

Definition empty : t := [].

Definition Insert (tokenType : TokenType) (token : list Z) (root : t) : t :=
  root ++ [InsertCall tokenType token].

Definition InsertClose (tokenType : TokenType) (openToken closeToken : list Z)
    (root : t) : t :=
  root ++ [InsertCloseCall tokenType openToken closeToken].

#[global] Instance call_eq_dec : EqDecision call.
Proof. solve_decision. Defined.

(** Any implementation of the two methods is recovered from the sequence
    of insertions. *)
Section Replay.
Variable T : Type.
Variable new : T.
Variable insert : TokenType -> list Z -> T -> T.
Variable insertClose : TokenType -> list Z -> list Z -> T -> T.

Definition replay_call (acc : T) (c : call) : T :=
  match c with
  | InsertCall ty tok => insert ty tok acc
  | InsertCloseCall ty o c => insertClose ty o c acc
  end.

Definition replay (root : t) : T := foldl replay_call new root.
End Replay.

End Trie.

(** ** Language definitions and compiled features *)

Module Language.
(** The fields of [Language] that processor.go reads.  [MultiLine] and
    [Quotes] are [[][]string]: each entry is indexed at 0 and 1. *)
Record t : Type := mk {
  LineComment : list string;
  ComplexityChecks : list string;
  Extensions : list string;
  MultiLine : list (list string);
  Quotes : list (list string);
  NestedMultiLine : bool
}.

(** The zero value, which a Go map returns for an absent key. *)
Definition zero : t := mk [] [] [] [] [] false.
End Language.

Module LanguageFeature.
Record t : Type := mk {
  Complexity : Trie.t;
  MultiLineComments : Trie.t;
  SingleLineComments : Trie.t;
  Strings : Trie.t;
  Tokens : Trie.t;
  Nested : bool;
  ComplexityCheckMask : Z;
  MultiLineCommentMask : Z;
  SingleLineCommentMask : Z;
  StringCheckMask : Z;
  ProcessMask : Z
}.
End LanguageFeature.

(** A [for _, v := range l] loop over a slice whose body may panic: the
    loop state is threaded through the elements in order and the first
    panic ([None]) ends the loop. *)
Fixpoint range_slice {A S : Type} (body : S -> A -> option S) (s : S) (l : list A)
    : option S :=
  match l with
  | [] => Some s
  | v :: l' =>
      match body s v with
      | Some s' => range_slice body s' l'
      | None => None
      end
  end.

(** The state of the loops over one language: a category mask, the
    category's own trie and the combined [tokenTrie]. *)
Definition LoopState : Type := (Z * Trie.t * Trie.t)%type.

(** Lines 85-91. *)
Definition complexity_body (Complexity : bool) (st : LoopState) (v : string)
    : option LoopState :=
  let '(complexityMask, complexityTrie, tokenTrie) := st in
  b ← string_index0 v;
  Some (Z.lor complexityMask b,
        Trie.Insert T_COMPLEXITY (to_bytes v) complexityTrie,
        if negb Complexity
        then Trie.Insert T_COMPLEXITY (to_bytes v) tokenTrie
        else tokenTrie).

(** Lines 96-100. *)
Definition line_comment_body (st : LoopState) (v : string) : option LoopState :=
  let '(singleLineCommentMask, slCommentTrie, tokenTrie) := st in
  b ← string_index0 v;
  Some (Z.lor singleLineCommentMask b,
        Trie.Insert T_SLCOMMENT (to_bytes v) slCommentTrie,
        Trie.Insert T_SLCOMMENT (to_bytes v) tokenTrie).

(** Lines 103-107 and 110-114: [v[0][0]] is evaluated first and panics
    when [v] is empty or [v[0]] is the empty string, then [v[1]] panics
    when [v] has fewer than two elements. *)
Definition pair_body (tokenType : TokenType) (st : LoopState) (v : list string)
    : option LoopState :=
  let '(mask, trie, tokenTrie) := st in
  v0 ← v !! 0%nat;
  b ← string_index0 v0;
  v1 ← v !! 1%nat;
  Some (Z.lor mask b,
        Trie.InsertClose tokenType (to_bytes v0) (to_bytes v1) trie,
        Trie.InsertClose tokenType (to_bytes v0) (to_bytes v1) tokenTrie).

(** The body of the second loop of [ProcessConstants] (lines 73-129) for
    one language [value], under the current value of the [Complexity]
    flag; [None] when an index expression panics. *)
Definition ProcessLanguage (Complexity : bool) (value : Language.t)
    : option LanguageFeature.t :=
  let tokenTrie := Trie.empty in
  let processMask := 0 in
  '(complexityMask, complexityTrie, tokenTrie) ←
    range_slice (complexity_body Complexity) (0, Trie.empty, tokenTrie)
      (Language.ComplexityChecks value);
  let processMask :=
    if negb Complexity then Z.lor processMask complexityMask else processMask in
  '(singleLineCommentMask, slCommentTrie, tokenTrie) ←
    range_slice line_comment_body (0, Trie.empty, tokenTrie)
      (Language.LineComment value);
  let processMask := Z.lor processMask singleLineCommentMask in
  '(multiLineCommentMask, mlCommentTrie, tokenTrie) ←
    range_slice (pair_body T_MLCOMMENT) (0, Trie.empty, tokenTrie)
      (Language.MultiLine value);
  let processMask := Z.lor processMask multiLineCommentMask in
  '(stringMask, stringTrie, tokenTrie) ←
    range_slice (pair_body T_STRING) (0, Trie.empty, tokenTrie)
      (Language.Quotes value);
  let processMask := Z.lor processMask stringMask in
  Some {|
    LanguageFeature.Complexity := complexityTrie;
    LanguageFeature.MultiLineComments := mlCommentTrie;
    LanguageFeature.SingleLineComments := slCommentTrie;
    LanguageFeature.Strings := stringTrie;
    LanguageFeature.Tokens := tokenTrie;
    LanguageFeature.Nested := Language.NestedMultiLine value;
    LanguageFeature.ComplexityCheckMask := complexityMask;
    LanguageFeature.MultiLineCommentMask := multiLineCommentMask;
    LanguageFeature.SingleLineCommentMask := singleLineCommentMask;
    LanguageFeature.StringCheckMask := stringMask;
    LanguageFeature.ProcessMask := processMask
  |}.

(** ** Package variables *)

(** The package-level variables of processor.go, one field per variable. *)
Record Globals : Type := mkGlobals {
  Files : bool;
  Languages : bool;
  Verbose : bool;
  Debug : bool;
  Trace : bool;
  Duplicates : bool;
  Complexity : bool;
  More : bool;
  Cocomo : bool;
  DisableCheckBinary : bool;
  SortBy : string;
  Exclude : string;
  Format : string;
  FileOutput : string;
  PathBlacklist : list string;
  FileListQueueSize : Z;
  FileReadJobQueueSize : Z;
  FileReadJobWorkers : Z;
  FileReadContentJobQueueSize : Z;
  FileProcessJobQueueSize : Z;
  FileProcessJobWorkers : Z;
  FileSummaryJobQueueSize : Z;
  WhiteListExtensions : list string;
  AverageWage : Z;
  GcFileCount : Z;
  gcPercent : Z;
  DirFilePaths : list string;
  ExtensionToLanguage : gmap string string;
  LanguageFeatures : gmap string LanguageFeature.t
}.

(** The values the variable declarations give (lines 15-47), for a machine
    with [NumCPU] processors. *)
Definition initial_globals (NumCPU : Z) : Globals := {|
  Files := false; Languages := false; Verbose := false; Debug := false;
  Trace := false; Duplicates := false; Complexity := false; More := false;
  Cocomo := false; DisableCheckBinary := false;
  SortBy := EmptyString; Exclude := EmptyString; Format := EmptyString;
  FileOutput := EmptyString;
  PathBlacklist := [];
  FileListQueueSize := NumCPU;
  FileReadJobQueueSize := NumCPU;
  FileReadJobWorkers := NumCPU * 4;
  FileReadContentJobQueueSize := NumCPU;
  FileProcessJobQueueSize := NumCPU;
  FileProcessJobWorkers := NumCPU * 4;
  FileSummaryJobQueueSize := NumCPU;
  WhiteListExtensions := [];
  AverageWage := 56286;
  GcFileCount := 10000;
  gcPercent := -1;
  DirFilePaths := [];
  ExtensionToLanguage := ∅;
  LanguageFeatures := ∅
|}.

(** Assignments to the variables that the modelled functions write. *)
Definition set_Complexity (v : bool) (g : Globals) : Globals :=
  mkGlobals (Files g) (Languages g) (Verbose g) (Debug g) (Trace g)
    (Duplicates g) v (More g) (Cocomo g) (DisableCheckBinary g) (SortBy g)
    (Exclude g) (Format g) (FileOutput g) (PathBlacklist g)
    (FileListQueueSize g) (FileReadJobQueueSize g) (FileReadJobWorkers g)
    (FileReadContentJobQueueSize g) (FileProcessJobQueueSize g)
    (FileProcessJobWorkers g) (FileSummaryJobQueueSize g)
    (WhiteListExtensions g) (AverageWage g) (GcFileCount g) (gcPercent g)
    (DirFilePaths g) (ExtensionToLanguage g) (LanguageFeatures g).

Definition set_SortBy (v : string) (g : Globals) : Globals :=
  mkGlobals (Files g) (Languages g) (Verbose g) (Debug g) (Trace g)
    (Duplicates g) (Complexity g) (More g) (Cocomo g) (DisableCheckBinary g) v
    (Exclude g) (Format g) (FileOutput g) (PathBlacklist g)
    (FileListQueueSize g) (FileReadJobQueueSize g) (FileReadJobWorkers g)
    (FileReadContentJobQueueSize g) (FileProcessJobQueueSize g)
    (FileProcessJobWorkers g) (FileSummaryJobQueueSize g)
    (WhiteListExtensions g) (AverageWage g) (GcFileCount g) (gcPercent g)
    (DirFilePaths g) (ExtensionToLanguage g) (LanguageFeatures g).

Definition set_DirFilePaths (v : list string) (g : Globals) : Globals :=
  mkGlobals (Files g) (Languages g) (Verbose g) (Debug g) (Trace g)
    (Duplicates g) (Complexity g) (More g) (Cocomo g) (DisableCheckBinary g)
    (SortBy g) (Exclude g) (Format g) (FileOutput g) (PathBlacklist g)
    (FileListQueueSize g) (FileReadJobQueueSize g) (FileReadJobWorkers g)
    (FileReadContentJobQueueSize g) (FileProcessJobQueueSize g)
    (FileProcessJobWorkers g) (FileSummaryJobQueueSize g)
    (WhiteListExtensions g) (AverageWage g) (GcFileCount g) (gcPercent g)
    v (ExtensionToLanguage g) (LanguageFeatures g).

Definition set_ExtensionToLanguage (v : gmap string string) (g : Globals)
    : Globals :=
  mkGlobals (Files g) (Languages g) (Verbose g) (Debug g) (Trace g)
    (Duplicates g) (Complexity g) (More g) (Cocomo g) (DisableCheckBinary g)
    (SortBy g) (Exclude g) (Format g) (FileOutput g) (PathBlacklist g)
    (FileListQueueSize g) (FileReadJobQueueSize g) (FileReadJobWorkers g)
    (FileReadContentJobQueueSize g) (FileProcessJobQueueSize g)
    (FileProcessJobWorkers g) (FileSummaryJobQueueSize g)
    (WhiteListExtensions g) (AverageWage g) (GcFileCount g) (gcPercent g)
    (DirFilePaths g) v (LanguageFeatures g).

Definition set_LanguageFeatures (v : gmap string LanguageFeature.t)
    (g : Globals) : Globals :=
  mkGlobals (Files g) (Languages g) (Verbose g) (Debug g) (Trace g)
    (Duplicates g) (Complexity g) (More g) (Cocomo g) (DisableCheckBinary g)
    (SortBy g) (Exclude g) (Format g) (FileOutput g) (PathBlacklist g)
    (FileListQueueSize g) (FileReadJobQueueSize g) (FileReadJobWorkers g)
    (FileReadContentJobQueueSize g) (FileProcessJobQueueSize g)
    (FileProcessJobWorkers g) (FileSummaryJobQueueSize g)
    (WhiteListExtensions g) (AverageWage g) (GcFileCount g) (gcPercent g)
    (DirFilePaths g) (ExtensionToLanguage g) v.


(** ** Effects *)

(** The argument of a formatting verb. *)
Inductive FmtArg : Type :=
  | ArgBool (b : bool)
  | ArgString (s : string)
  | ArgInt (n : Z)
  | ArgStrings (l : list string).

(** A goroutine started by a [go] statement; channels are named by the
    order of their creation. *)
Inductive Goroutine : Type :=
  | walkDirectoryParallel (root : string) (output : nat)
  | fileReaderWorker (input output : nat)
  | fileProcessorWorker (input output : nat).

(** What the package does to the outside, in program order.  The elapsed
    time that [printTrace] formats is a clock reading and is left out. *)
Inductive Event : Type :=
  | EvPrintTrace (format : string)
  | EvPrintDebug (format : string) (arg : FmtArg)
  | EvPrintln (s : string)
  | EvMakeChan (id : nat) (capacity : Z)
  | EvGo (g : Goroutine)
  | EvFileSummarize (input : nat)
  | EvWriteFile (filename data : string) (perm : Z).

Inductive PanicValue : Type :=
  | PanicMessage (msg : string)
  | PanicIndexOutOfRange
  | PanicMakeChanSize.

Record World : Type := mkWorld {
  globals : Globals;
  events : list Event
}.

Inductive Res (A : Type) : Type :=
  | Ret (a : A)
  | Panic (p : PanicValue).
Arguments Ret {A} a.
Arguments Panic {A} p.

(** Computations over the package variables and the outside world that
    may panic; a panic keeps the world it happened in. *)
Definition M (A : Type) : Type := World -> Res A * World.

Definition ret {A} (a : A) : M A := fun w => (Ret a, w).

Definition bind {A B} (m : M A) (f : A -> M B) : M B :=
  fun w =>
    match m w with
    | (Ret a, w') => f a w'
    | (Panic p, w') => (Panic p, w')
    end.

Declare Scope go_scope.
Delimit Scope go_scope with go.
Notation "x <- m ;; k" := (bind m (fun x => k))
  (at level 20, m at level 99, k at level 200, only parsing) : go_scope.
Notation "m ;; k" := (bind m (fun _ => k))
  (at level 100, k at level 200, only parsing, right associativity) : go_scope.
Local Open Scope go_scope.

Definition panic {A} (p : PanicValue) : M A := fun w => (Panic p, w).

Definition gets {A} (f : Globals -> A) : M A := fun w => (Ret (f (globals w)), w).

Definition modify (f : Globals -> Globals) : M unit :=
  fun w => (Ret tt, mkWorld (f (globals w)) (events w)).

Definition emit (e : Event) : M unit :=
  fun w => (Ret tt, mkWorld (globals w) (events w ++ [e])).

Definition when (b : bool) (m : M unit) : M unit := if b then m else ret tt.

(** An index expression: [None] is the run-time panic. *)
Definition checked {A} (o : option A) : M A :=
  match o with
  | Some a => ret a
  | None => panic PanicIndexOutOfRange
  end.

(** [for _, x := range l { body }] *)
Fixpoint forM_ {A} (l : list A) (body : A -> M unit) : M unit :=
  match l with
  | [] => ret tt
  | x :: l' => body x ;; forM_ l' body
  end.

Definition channels (evs : list Event) : list Z :=
  omap (fun e => match e with EvMakeChan _ c => Some c | _ => None end) evs.

(** [make(chan *FileJob, capacity)]: panics on a negative size; the new
    channel is named by the number of channels made before it. *)
Definition make_chan (capacity : Z) : M nat :=
  fun w =>
    if (capacity <? 0)%Z then (Panic PanicMakeChanSize, w)
    else
      let id := length (channels (events w)) in
      (Ret id, mkWorld (globals w) (events w ++ [EvMakeChan id capacity])).

(** ** The runtime and the libraries *)

Inductive GoResult (A : Type) : Type :=
  | Success (a : A)
  | Failure (err : string).
Arguments Success {A} a.
Arguments Failure {A} err.

(** What processor.go takes from outside the file: the embedded
    [languages] constant, the library functions it calls, the order in
    which each [range] over the database enumerates it, and what
    [fileSummarize] returns once the pipeline has drained. *)
Record Runtime : Type := mkRuntime {
  languages : string;
  base64_DecodeString : string -> GoResult (list Z);
  json_Unmarshal : list Z -> GoResult (gmap string Language.t);
  range_extensions : gmap string Language.t -> list (string * Language.t);
  range_features : gmap string Language.t -> list (string * Language.t);
  range_names : gmap string Language.t -> list (string * Language.t);
  sort_Slice_lower : list string -> list string;
  strings_ToLower : string -> string;
  fileSummarize : string;
  NumCPU : Z
}.

(** A [range] over a map visits every entry once, in an order of the
    runtime's choosing. *)
Definition range_ok (rng : gmap string Language.t -> list (string * Language.t))
    : Prop :=
  forall db, rng db ≡ₚ map_to_list db.

Definition runtime_ok (rt : Runtime) : Prop :=
  range_ok (range_extensions rt) /\ range_ok (range_features rt) /\
  range_ok (range_names rt).

(** ** The functions of processor.go *)

Section Processor.

Variable rt : Runtime.

(** Lines 158-176. *)
Definition loadDatabase : M (gmap string Language.t) :=
  match base64_DecodeString rt (languages rt) with
  | Failure err =>
      panic (PanicMessage (String.append "failed to base64 decode languages: " err))
  | Success data =>
      match json_Unmarshal rt data with
      | Failure err =>
          panic (PanicMessage (String.append "languages json invalid: " err))
      | Success database =>
          trace <- gets Trace ;;
          when trace (emit (EvPrintTrace "milliseconds unmarshal: %d")) ;;
          ret database
      end
  end.

(** Lines 57-135. *)
Definition ProcessConstants : M unit :=
  database <- loadDatabase ;;
  forM_ (range_extensions rt database) (fun entry =>
    let '(name, value) := entry in
    forM_ (Language.Extensions value) (fun ext =>
      modify (fun g =>
        set_ExtensionToLanguage (<[ext := name]> (ExtensionToLanguage g)) g))) ;;
  trace <- gets Trace ;;
  when trace
    (emit (EvPrintTrace "nanoseconds build extension to language: %d")) ;;
  forM_ (range_features rt database) (fun entry =>
    let '(name, value) := entry in
    complexity <- gets Complexity ;;
    feature <- checked (ProcessLanguage complexity value) ;;
    modify (fun g =>
      set_LanguageFeatures (<[name := feature]> (LanguageFeatures g)) g)) ;;
  trace <- gets Trace ;;
  when trace (emit (EvPrintTrace "milliseconds build language features: %d")).

(** Lines 137-156. *)
Definition processFlags : M unit :=
  more <- gets More ;;
  complexity <- gets Complexity ;;
  when (more && complexity) (modify (set_Complexity false)) ;;
  debug <- gets Debug ;;
  when debug (
    g <- gets id ;;
    emit (EvPrintDebug "Path Black List: %v" (ArgStrings (PathBlacklist g))) ;;
    emit (EvPrintDebug "Sort By: %s" (ArgString (SortBy g))) ;;
    emit (EvPrintDebug "White List: %v" (ArgStrings (WhiteListExtensions g))) ;;
    emit (EvPrintDebug "Files Output: %t" (ArgBool (Files g))) ;;
    emit (EvPrintDebug "Verbose: %t" (ArgBool (Verbose g))) ;;
    emit (EvPrintDebug "Duplicates Detection: %t" (ArgBool (Duplicates g))) ;;
    emit (EvPrintDebug "Complexity Calculation: %t" (ArgBool (negb (Complexity g)))) ;;
    emit (EvPrintDebug "Wide: %t" (ArgBool (More g))) ;;
    emit (EvPrintDebug "Average Wage: %d" (ArgInt (AverageWage g))) ;;
    emit (EvPrintDebug "Cocomo: %t" (ArgBool (negb (Cocomo g))))).

(** Lines 178-193. *)
Definition printLanguages : M unit :=
  database <- loadDatabase ;;
  let names := sort_Slice_lower rt ((range_names rt database).*1) in
  forM_ names (fun name =>
    emit (EvPrintln
      (String.append name (String.append " ("
        (String.append
          (strings_Join
             (Language.Extensions (default Language.zero (database !! name))) ",")
          ")"))))).

(** Lines 204-232 of [Process]: the pipeline set-up and the report. *)
Definition Process_pipeline : M unit :=
  paths <- gets DirFilePaths ;;
  when (Nat.eqb (length paths) 0) (modify (set_DirFilePaths (paths ++ ["."]))) ;;
  modify (fun g => set_SortBy (strings_ToLower rt (SortBy g)) g) ;;
  debug <- gets Debug ;;
  when debug (
    g <- gets id ;;
    emit (EvPrintDebug "NumCPU: %d" (ArgInt (NumCPU rt))) ;;
    emit (EvPrintDebug "SortBy: %s" (ArgString (SortBy g))) ;;
    emit (EvPrintDebug "PathBlacklist: %v" (ArgStrings (PathBlacklist g)))) ;;
  size <- gets FileListQueueSize ;;
  fileListQueue <- make_chan size ;;
  size <- gets FileReadContentJobQueueSize ;;
  fileReadContentJobQueue <- make_chan size ;;
  size <- gets FileSummaryJobQueueSize ;;
  fileSummaryJobQueue <- make_chan size ;;
  paths <- gets DirFilePaths ;;
  root <- checked (paths !! 0%nat) ;;
  emit (EvGo (walkDirectoryParallel root fileListQueue)) ;;
  emit (EvGo (fileReaderWorker fileListQueue fileReadContentJobQueue)) ;;
  emit (EvGo (fileProcessorWorker fileReadContentJobQueue fileSummaryJobQueue)) ;;
  emit (EvFileSummarize fileSummaryJobQueue) ;;
  let result := fileSummarize rt in
  output <- gets FileOutput ;;
  if String.eqb output EmptyString then emit (EvPrintln result)
  else
    emit (EvWriteFile output result 384) ;;
    emit (EvPrintln (String.append "results written to " output)).

(** Lines 195-233. *)
Definition Process : M unit :=
  listing <- gets Languages ;;
  if listing then printLanguages
  else
    ProcessConstants ;;
    processFlags ;;
    Process_pipeline.

End Processor.

(** ** Observations on a run *)


(** The goroutines started and the lines printed, in order. *)
Definition goroutines (evs : list Event) : list Goroutine :=
  omap (fun e => match e with EvGo g => Some g | _ => None end) evs.

Definition printed (evs : list Event) : list string :=
  omap (fun e => match e with EvPrintln s => Some s | _ => None end) evs.

Definition initial_world (g : Globals) : World := mkWorld g [].

(** ** Sample inputs *)

(** Two languages that share the extension "h", and a runtime whose
    table holds them and that enumerates maps in [map_to_list] order. *)
Definition demo_c : Language.t :=
  Language.mk ["//"] ["if "; "for "] ["c"; "h"] [["/*"; "*/"]] [["'"; "'"]] false.

Definition demo_h : Language.t :=
  Language.mk ["//"] ["if "] ["h"; "hpp"] [["/*"; "*/"]] [["'"; "'"]] false.

Definition demo_database : gmap string Language.t :=
  <["C" := demo_c]> (<["C Header" := demo_h]> ∅).

Definition demo_runtime : Runtime := {|
  languages := "e30=";
  base64_DecodeString := fun _ => Success [];
  json_Unmarshal := fun _ => Success demo_database;
  range_extensions := map_to_list;
  range_features := map_to_list;
  range_names := map_to_list;
  sort_Slice_lower := fun l => l;
  strings_ToLower := fun s => s;
  fileSummarize := "report";
  NumCPU := 4
|}.

(** The runtime [rt] with another embedded table. *)
Definition with_database (db : gmap string Language.t) (rt : Runtime) : Runtime :=
  mkRuntime (languages rt) (base64_DecodeString rt) (fun _ => Success db)
    (range_extensions rt) (range_features rt) (range_names rt)
    (sort_Slice_lower rt) (strings_ToLower rt) (fileSummarize rt) (NumCPU rt).

(** The runtime enumerating every map backwards. *)
Definition reversed (rt : Runtime) : Runtime :=
  mkRuntime (languages rt) (base64_DecodeString rt) (json_Unmarshal rt)
    (fun db => reverse (range_extensions rt db))
    (fun db => reverse (range_features rt db))
    (fun db => reverse (range_names rt db))
    (sort_Slice_lower rt) (strings_ToLower rt) (fileSummarize rt) (NumCPU rt).

Definition w0 : World := initial_world (initial_globals 4).

(** ** Vocabulary of the statements *)

(** The database [loadDatabase] returns, when it returns. *)
Definition decoded_table (rt : Runtime) : GoResult (gmap string Language.t) :=
  match base64_DecodeString rt (languages rt) with
  | Failure err => Failure err
  | Success data => json_Unmarshal rt data
  end.

(** The first byte of an (open, close) entry, when both indexes exist. *)
Definition pair_first (v : list string) : option Z :=
  v0 ← v !! 0%nat; b ← string_index0 v0; _ ← v !! 1%nat; Some b.

Definition plain_call (ty : TokenType) (v : string) : Trie.call :=
  Trie.InsertCall ty (to_bytes v).

Definition pair_call (ty : TokenType) (v : list string) : Trie.call :=
  Trie.InsertCloseCall ty (to_bytes (default EmptyString (v !! 0%nat)))
    (to_bytes (default EmptyString (v !! 1%nat))).

Definition or_bytes (m : Z) (bs : list Z) : Z := foldl Z.lor m bs.

(** The tokens of a category whose first bytes feed its mask: the plain
    tokens, and the openers of the paired ones. *)
Definition category_tokens (cat : TokenType) (value : Language.t) : list string :=
  match cat with
  | T_COMPLEXITY => Language.ComplexityChecks value
  | T_SLCOMMENT => Language.LineComment value
  | T_MLCOMMENT => omap (fun v => v !! 0%nat) (Language.MultiLine value)
  | T_STRING => omap (fun v => v !! 0%nat) (Language.Quotes value)
  end.

Definition category_mask (cat : TokenType) (lf : LanguageFeature.t) : Z :=
  match cat with
  | T_COMPLEXITY => LanguageFeature.ComplexityCheckMask lf
  | T_SLCOMMENT => LanguageFeature.SingleLineCommentMask lf
  | T_MLCOMMENT => LanguageFeature.MultiLineCommentMask lf
  | T_STRING => LanguageFeature.StringCheckMask lf
  end.

(** Every index expression of the loops over [value] is in range. *)
Definition compilable (value : Language.t) : Prop :=
  Forall (fun v => v <> EmptyString) (Language.ComplexityChecks value) /\
  Forall (fun v => v <> EmptyString) (Language.LineComment value) /\
  Forall (fun v => is_Some (pair_first v)) (Language.MultiLine value) /\
  Forall (fun v => is_Some (pair_first v)) (Language.Quotes value).

(** The extension table after the first loop of [ProcessConstants] has
    visited [order], starting from [m]. *)
Definition extensions_after (order : list (string * Language.t))
    (m : gmap string string) : gmap string string :=
  foldl (fun m entry =>
    foldl (fun m ext => <[ext := entry.1]> m) m (Language.Extensions entry.2))
    m order.

(** The feature table after the second loop has visited [order] without a
    panic, starting from [m]. *)
Definition features_after (c : bool) (order : list (string * Language.t))
    (m : gmap string LanguageFeature.t) : gmap string LanguageFeature.t :=
  foldl (fun m entry =>
    match ProcessLanguage c entry.2 with
    | Some lf => <[entry.1 := lf]> m
    | None => m
    end) m order.

Definition trace_events (t : bool) (evs : list Event) : list Event :=
  if t then evs else [].

(** The trace output of a [ProcessConstants] that returns. *)
Definition ProcessConstants_trace (t : bool) : list Event :=
  trace_events t
    [EvPrintTrace "milliseconds unmarshal: %d";
     EvPrintTrace "nanoseconds build extension to language: %d";
     EvPrintTrace "milliseconds build language features: %d"].

(** Every resolved language has compiled features. *)
Definition tables_consistent (g : Globals) : Prop :=
  forall ext name,
    ExtensionToLanguage g !! ext = Some name ->
    is_Some (LanguageFeatures g !! name).

(** No extension is declared by two different languages. *)
Definition unambiguous (db : gmap string Language.t) : Prop :=
  forall n1 v1 n2 v2 ext,
    db !! n1 = Some v1 -> db !! n2 = Some v2 ->
    ext ∈ Language.Extensions v1 -> ext ∈ Language.Extensions v2 -> n1 = n2.

(** All package variables but [Complexity] agree. *)
Definition same_except_Complexity (g g' : Globals) : Prop :=
  Files g' = Files g /\ Languages g' = Languages g /\ Verbose g' = Verbose g /\
  Debug g' = Debug g /\ Trace g' = Trace g /\ Duplicates g' = Duplicates g /\
  More g' = More g /\ Cocomo g' = Cocomo g /\
  DisableCheckBinary g' = DisableCheckBinary g /\ SortBy g' = SortBy g /\
  Exclude g' = Exclude g /\ Format g' = Format g /\
  FileOutput g' = FileOutput g /\ PathBlacklist g' = PathBlacklist g /\
  FileListQueueSize g' = FileListQueueSize g /\
  FileReadJobQueueSize g' = FileReadJobQueueSize g /\
  FileReadJobWorkers g' = FileReadJobWorkers g /\
  FileReadContentJobQueueSize g' = FileReadContentJobQueueSize g /\
  FileProcessJobQueueSize g' = FileProcessJobQueueSize g /\
  FileProcessJobWorkers g' = FileProcessJobWorkers g /\
  FileSummaryJobQueueSize g' = FileSummaryJobQueueSize g /\
  WhiteListExtensions g' = WhiteListExtensions g /\
  AverageWage g' = AverageWage g /\ GcFileCount g' = GcFileCount g /\
  gcPercent g' = gcPercent g /\ DirFilePaths g' = DirFilePaths g /\
  ExtensionToLanguage g' = ExtensionToLanguage g /\
  LanguageFeatures g' = LanguageFeatures g.

(** ** Vocabulary of the runs and sample inputs *)

(** The body of the second loop of [ProcessConstants] (lines 72-130), as
    it stands in the definition above. *)
Definition feature_body (entry : string * Language.t) : M unit :=
  let '(name, value) := entry in
  complexity <- gets Complexity ;;
  feature <- checked (ProcessLanguage complexity value) ;;
  modify (fun g =>
    set_LanguageFeatures (<[name := feature]> (LanguageFeatures g)) g).

(** The world a returning [ProcessConstants] leaves. *)
Definition ProcessConstants_world (rt : Runtime) (db : gmap string Language.t)
    (w : World) : World :=
  let g := globals w in
  mkWorld
    (set_LanguageFeatures
       (features_after (Complexity g) (range_features rt db) (LanguageFeatures g))
       (set_ExtensionToLanguage
          (extensions_after (range_extensions rt db) (ExtensionToLanguage g)) g))
    (events w ++ ProcessConstants_trace (Trace g)).

(** The package variables [processFlags] leaves (lines 140-142). *)
Definition processFlags_globals (g : Globals) : Globals :=
  if More g && Complexity g then set_Complexity false g else g.

(** What [processFlags] prints under [Debug] (lines 145-154). *)
Definition processFlags_debug (g : Globals) : list Event :=
  [EvPrintDebug "Path Black List: %v" (ArgStrings (PathBlacklist g));
   EvPrintDebug "Sort By: %s" (ArgString (SortBy g));
   EvPrintDebug "White List: %v" (ArgStrings (WhiteListExtensions g));
   EvPrintDebug "Files Output: %t" (ArgBool (Files g));
   EvPrintDebug "Verbose: %t" (ArgBool (Verbose g));
   EvPrintDebug "Duplicates Detection: %t" (ArgBool (Duplicates g));
   EvPrintDebug "Complexity Calculation: %t" (ArgBool (negb (Complexity g)));
   EvPrintDebug "Wide: %t" (ArgBool (More g));
   EvPrintDebug "Average Wage: %d" (ArgInt (AverageWage g));
   EvPrintDebug "Cocomo: %t" (ArgBool (negb (Cocomo g)))].

(** The initial package variables with [Complexity] set, which turns the
    complexity calculation off. *)
Definition complexity_disabled : Globals := set_Complexity true (initial_globals 4).

(** A language whose only complexity token starts with the byte 0. *)
Definition nul_language : Language.t :=
  Language.mk [] [String Ascii.zero "x"] ["n"] [] [] false.

Definition nul_runtime : Runtime :=
  with_database (<["N" := nul_language]> ∅) demo_runtime.

(** The features [ProcessConstants] leaves for a language. *)
Definition compiled (rt : Runtime) (w : World) (name : string)
    : option LanguageFeature.t :=
  LanguageFeatures (globals (ProcessConstants rt w).2) !! name.

(** A table without a shared extension. *)
Definition disjoint_database : gmap string Language.t :=
  <["C" := demo_c]> (<["N" := nul_language]> ∅).

(** The channels made, with their capacities, and the channels handed to
    [fileSummarize]. *)
Definition made_channels (evs : list Event) : list (nat * Z) :=
  omap (fun e => match e with EvMakeChan id c => Some (id, c) | _ => None end) evs.

Definition summarized (evs : list Event) : list nat :=
  omap (fun e => match e with EvFileSummarize q => Some q | _ => None end) evs.






(** Package variables for the examples: the flags [More] and
    [Complexity], the five queue sizes and the root paths. *)
Definition sample_globals (more complexity : bool) (q1 q2 q3 q4 q5 : Z)
    (paths : list string) : Globals :=
  mkGlobals false false false false false false complexity more false false
    EmptyString EmptyString EmptyString EmptyString [] q1 q2 16 q3 q4 16 q5 []
    56286 10000 (-1) paths ∅ ∅.




Definition more_and_complexity : Globals :=
  sample_globals true true 4 4 4 4 4 ["."].

(** A runtime whose embedded table does not decode. *)
Definition broken_runtime : Runtime :=
  mkRuntime "!" (fun _ => Failure "illegal base64 data at input byte 0")
    (json_Unmarshal demo_runtime) map_to_list map_to_list map_to_list
    (fun l => l) (fun s => s) "report" 4.

(** ** [ConfigureGc] and further vocabulary *)

Definition set_gcPercent (v : Z) (g : Globals) : Globals :=
  mkGlobals (Files g) (Languages g) (Verbose g) (Debug g) (Trace g)
    (Duplicates g) (Complexity g) (More g) (Cocomo g) (DisableCheckBinary g)
    (SortBy g) (Exclude g) (Format g) (FileOutput g) (PathBlacklist g)
    (FileListQueueSize g) (FileReadJobQueueSize g) (FileReadJobWorkers g)
    (FileReadContentJobQueueSize g) (FileProcessJobQueueSize g)
    (FileProcessJobWorkers g) (FileSummaryJobQueueSize g)
    (WhiteListExtensions g) (AverageWage g) (GcFileCount g) v
    (DirFilePaths g) (ExtensionToLanguage g) (LanguageFeatures g).

(** The conversion of an [int] to [int32], by wrap-around. *)
Definition to_int32 (n : Z) : Z := (n + 2 ^ 31) mod 2 ^ 32 - 2 ^ 31.

(** [debug.SetGCPercent(percent)] on a runtime whose collector runs at
    [current] percent: the library sets the target to the argument, taken
    as an [int32] with every negative value stored as -1 (collection
    off), and returns the previous setting.  The result is the pair of
    the returned value and the new setting. *)
Definition debug_SetGCPercent (percent current : Z) : Z * Z :=
  let p := to_int32 percent in
  (current, if (p <? 0)%Z then -1 else p).

(** Lines 51-53, on the pair of the runtime's collector setting and the
    package variables. *)
Definition ConfigureGc (st : Z * Globals) : Z * Globals :=
  let '(current, g) := st in
  let '(previous, current') := debug_SetGCPercent (gcPercent g) current in
  (current', set_gcPercent previous g).

(** The path an insertion adds to a trie: the token, or the opener. *)
Definition call_path (c : Trie.call) : list Z :=
  match c with
  | Trie.InsertCall _ token => token
  | Trie.InsertCloseCall _ openToken _ => openToken
  end.

(** The line [printLanguages] prints for a language (line 191). *)
Definition language_line (database : gmap string Language.t) (name : string)
    : string :=
  String.append name (String.append " ("
    (String.append
       (strings_Join
          (Language.Extensions (default Language.zero (database !! name))) ",")
       ")")).

(** The files written, with their contents and permissions. *)
Definition written (evs : list Event) : list (string * string * Z) :=
  omap (fun e =>
    match e with EvWriteFile f d p => Some (f, d, p) | _ => None end) evs.



(** Package variables asking for the language listing, for a report
    written to a file, and with a negative queue size. *)
Definition listing_globals : Globals :=
  mkGlobals false true false false false false false false false false
    EmptyString EmptyString EmptyString EmptyString [] 4 4 16 4 4 16 4 []
    56286 10000 (-1) [] ∅ ∅.


Definition negative_size_globals : Globals :=
  sample_globals false false 4 4 (-1) 4 4 ["."].

(** ** Bytes and masks *)

Lemma byte_of_ascii_range c : 0 <= byte_of_ascii c < 256.
Proof.
  unfold byte_of_ascii. pose proof (N_ascii_bounded c) as H. lia.
Qed.

Lemma land_lor_keep b m x : Z.land b m = b -> Z.land b (Z.lor m x) = b.
Proof.
  intros H. apply Z.bits_inj'. intros n Hn.
  rewrite Z.land_spec, Z.lor_spec.
  assert (Hb : Z.testbit (Z.land b m) n = Z.testbit b n) by (now rewrite H).
  rewrite Z.land_spec in Hb.
  destruct (Z.testbit b n), (Z.testbit m n), (Z.testbit x n); simpl in *; congruence.
Qed.

Lemma land_lor_self b m : Z.land b (Z.lor m b) = b.
Proof.
  apply Z.bits_inj'. intros n Hn. rewrite Z.land_spec, Z.lor_spec.
  destruct (Z.testbit b n), (Z.testbit m n); reflexivity.
Qed.

Lemma or_bytes_keep bs m b : Z.land b m = b -> Z.land b (or_bytes m bs) = b.
Proof.
  revert m. induction bs as [|x bs IH]; intros m H; simpl; [exact H|].
  apply IH. now apply land_lor_keep.
Qed.

Lemma or_bytes_covers bs m b : b ∈ bs -> Z.land b (or_bytes m bs) = b.
Proof.
  revert m. induction bs as [|x bs IH]; intros m H.
  - inversion H.
  - apply elem_of_cons in H as [->|H]; simpl.
    + apply or_bytes_keep, land_lor_self.
    + now apply IH.
Qed.

(** Every mask is a byte. *)
Lemma or_bytes_range bs m :
  0 <= m < 256 -> Forall (fun b => 0 <= b < 256) bs -> 0 <= or_bytes m bs < 256.
Proof.
  revert m. induction bs as [|x bs IH]; intros m Hm Hbs; simpl; [exact Hm|].
  apply Forall_cons in Hbs as [Hx Hbs]. apply IH; [|exact Hbs].
  split.
  - apply Z.lor_nonneg. lia.
  - change 256 with (2 ^ 8).
    destruct (Z.eq_dec (Z.lor m x) 0) as [->|Hne]; [lia|].
    apply Z.log2_lt_pow2; [|].
    + assert (0 <= Z.lor m x) by (apply Z.lor_nonneg; lia). lia.
    + rewrite Z.log2_lor by lia.
      apply Z.max_lub_lt.
      * destruct (Z.eq_dec m 0) as [->|?]; [simpl; lia|].
        apply Z.log2_lt_pow2; lia.
      * destruct (Z.eq_dec x 0) as [->|?]; [simpl; lia|].
        apply Z.log2_lt_pow2; lia.
Qed.

(** ** Tries as insertion sequences *)

Lemma replay_Insert {T} (new : T) ins insc ty tok root :
  Trie.replay T new ins insc (Trie.Insert ty tok root) =
    ins ty tok (Trie.replay T new ins insc root).
Proof. unfold Trie.replay, Trie.Insert. now rewrite foldl_snoc. Qed.

Lemma replay_InsertClose {T} (new : T) ins insc ty o c root :
  Trie.replay T new ins insc (Trie.InsertClose ty o c root) =
    insc ty o c (Trie.replay T new ins insc root).
Proof. unfold Trie.replay, Trie.InsertClose. now rewrite foldl_snoc. Qed.

(** ** The loops over one language *)

Section Loops.
Context {A : Type}.
Variable first : A -> option Z.
Variable own : A -> Trie.call.
Variable shared : A -> list Trie.call.
Variable body : LoopState -> A -> option LoopState.

Hypothesis body_shape : forall m t1 t2 v,
  body (m, t1, t2) v =
    (b ← first v; Some (Z.lor m b, t1 ++ [own v], t2 ++ shared v)).

Lemma range_slice_shape l : forall m t1 t2,
  range_slice body (m, t1, t2) l =
    (bs ← mapM first l;
     Some (or_bytes m bs, t1 ++ (own <$> l), t2 ++ concat (shared <$> l))).
Proof.
  induction l as [|v l IH]; intros m t1 t2; simpl.
  - now rewrite !app_nil_r.
  - rewrite body_shape. destruct (first v) as [b|]; simpl; [|reflexivity].
    rewrite IH. destruct (mapM first l) as [bs|]; simpl; [|reflexivity].
    now rewrite <- !app_assoc.
Qed.
End Loops.

Lemma complexity_body_shape c m t1 t2 v :
  complexity_body c (m, t1, t2) v =
    (b ← string_index0 v;
     Some (Z.lor m b, t1 ++ [plain_call T_COMPLEXITY v],
           t2 ++ (if c then [] else [plain_call T_COMPLEXITY v]))).
Proof.
  unfold complexity_body. destruct (string_index0 v); simpl; [|reflexivity].
  destruct c; simpl; [now rewrite app_nil_r | reflexivity].
Qed.

Lemma line_comment_body_shape m t1 t2 v :
  line_comment_body (m, t1, t2) v =
    (b ← string_index0 v;
     Some (Z.lor m b, t1 ++ [plain_call T_SLCOMMENT v],
           t2 ++ [plain_call T_SLCOMMENT v])).
Proof. reflexivity. Qed.

Lemma pair_body_shape ty m t1 t2 v :
  pair_body ty (m, t1, t2) v =
    (b ← pair_first v;
     Some (Z.lor m b, t1 ++ [pair_call ty v], t2 ++ [pair_call ty v])).
Proof.
  unfold pair_body, pair_first, pair_call.
  destruct (v !! 0%nat) as [v0|]; simpl; [|reflexivity].
  destruct (string_index0 v0); simpl; [|reflexivity].
  destruct (v !! 1%nat); reflexivity.
Qed.

Lemma concat_singletons {X Y} (f : X -> Y) (l : list X) :
  concat ((fun v => [f v]) <$> l) = f <$> l.
Proof. induction l as [|x l IH]; [reflexivity|]. cbn. f_equal. exact IH. Qed.

Lemma concat_nils {X Y} (l : list X) :
  concat ((fun _ => @nil Y) <$> l) = [].
Proof. induction l as [|x l IH]; [reflexivity|]. cbn. exact IH. Qed.

(** [ProcessLanguage] in closed form: the four loops succeed together or
    the compilation panics, and then each trie holds its category's
    insertions and each mask is the OR of the first bytes. *)
Lemma ProcessLanguage_closed_form c value :
  ProcessLanguage c value =
    (cb ← mapM string_index0 (Language.ComplexityChecks value);
     sb ← mapM string_index0 (Language.LineComment value);
     mb ← mapM pair_first (Language.MultiLine value);
     qb ← mapM pair_first (Language.Quotes value);
     Some {|
       LanguageFeature.Complexity :=
         plain_call T_COMPLEXITY <$> Language.ComplexityChecks value;
       LanguageFeature.MultiLineComments :=
         pair_call T_MLCOMMENT <$> Language.MultiLine value;
       LanguageFeature.SingleLineComments :=
         plain_call T_SLCOMMENT <$> Language.LineComment value;
       LanguageFeature.Strings := pair_call T_STRING <$> Language.Quotes value;
       LanguageFeature.Tokens :=
         (if c then []
          else plain_call T_COMPLEXITY <$> Language.ComplexityChecks value) ++
         (plain_call T_SLCOMMENT <$> Language.LineComment value) ++
         (pair_call T_MLCOMMENT <$> Language.MultiLine value) ++
         (pair_call T_STRING <$> Language.Quotes value);
       LanguageFeature.Nested := Language.NestedMultiLine value;
       LanguageFeature.ComplexityCheckMask := or_bytes 0 cb;
       LanguageFeature.MultiLineCommentMask := or_bytes 0 mb;
       LanguageFeature.SingleLineCommentMask := or_bytes 0 sb;
       LanguageFeature.StringCheckMask := or_bytes 0 qb;
       LanguageFeature.ProcessMask :=
         Z.lor (Z.lor (Z.lor (if c then 0 else or_bytes 0 cb) (or_bytes 0 sb))
                  (or_bytes 0 mb)) (or_bytes 0 qb)
     |}).
Proof.
  unfold ProcessLanguage.
  rewrite (range_slice_shape _ _ _ _ (complexity_body_shape c)).
  destruct (mapM string_index0 (Language.ComplexityChecks value)) as [cb|];
    simpl; [|reflexivity].
  rewrite (range_slice_shape _ _ _ _ line_comment_body_shape).
  destruct (mapM string_index0 (Language.LineComment value)) as [sb|];
    simpl; [|reflexivity].
  rewrite (range_slice_shape _ _ _ _ (pair_body_shape T_MLCOMMENT)).
  destruct (mapM pair_first (Language.MultiLine value)) as [mb|];
    simpl; [|reflexivity].
  rewrite (range_slice_shape _ _ _ _ (pair_body_shape T_STRING)).
  destruct (mapM pair_first (Language.Quotes value)) as [qb|];
    simpl; [|reflexivity].
  rewrite !concat_singletons.
  unfold Trie.empty. f_equal.
  destruct c; simpl.
  - rewrite concat_nils. simpl. now rewrite <- !app_assoc.
  - rewrite concat_singletons. simpl. now rewrite <- !app_assoc.
Qed.

(** ** Running the loops of [ProcessConstants] *)

Lemma world_eta w : mkWorld (globals w) (events w) = w.
Proof. now destruct w. Qed.

Lemma set_ExtensionToLanguage_id g :
  set_ExtensionToLanguage (ExtensionToLanguage g) g = g.
Proof. now destruct g. Qed.

Lemma set_LanguageFeatures_id g :
  set_LanguageFeatures (LanguageFeatures g) g = g.
Proof. now destruct g. Qed.

Lemma loadDatabase_Success rt db w :
  decoded_table rt = Success db ->
  loadDatabase rt w =
    (Ret db,
     mkWorld (globals w)
       (events w ++
        trace_events (Trace (globals w)) [EvPrintTrace "milliseconds unmarshal: %d"])).
Proof.
  unfold decoded_table, loadDatabase. intros H.
  destruct (base64_DecodeString rt (languages rt)) as [data|err]; [|discriminate].
  rewrite H. unfold bind, gets, when, emit, ret. simpl.
  destruct (Trace (globals w)); simpl; [reflexivity|].
  now rewrite app_nil_r, world_eta.
Qed.

Lemma loadDatabase_Failure rt err w :
  decoded_table rt = Failure err ->
  exists msg, loadDatabase rt w = (Panic (PanicMessage msg), w).
Proof.
  unfold decoded_table, loadDatabase. intros H.
  destruct (base64_DecodeString rt (languages rt)) as [data|err'].
  - rewrite H. eexists. reflexivity.
  - eexists. reflexivity.
Qed.

Lemma extension_inner_run name exts : forall w,
  forM_ exts (fun ext =>
    modify (fun g =>
      set_ExtensionToLanguage (<[ext := name]> (ExtensionToLanguage g)) g)) w =
  (Ret tt,
   mkWorld
     (set_ExtensionToLanguage
        (foldl (fun m ext => <[ext := name]> m)
           (ExtensionToLanguage (globals w)) exts) (globals w))
     (events w)).
Proof.
  induction exts as [|ext exts IH]; intros w; simpl.
  - unfold ret. now rewrite set_ExtensionToLanguage_id, world_eta.
  - unfold bind, modify at 1. rewrite IH. reflexivity.
Qed.

Lemma extension_loop_run order : forall w,
  forM_ order (fun entry : string * Language.t =>
    let '(name, value) := entry in
    forM_ (Language.Extensions value) (fun ext =>
      modify (fun g =>
        set_ExtensionToLanguage (<[ext := name]> (ExtensionToLanguage g)) g))) w =
  (Ret tt,
   mkWorld
     (set_ExtensionToLanguage
        (extensions_after order (ExtensionToLanguage (globals w))) (globals w))
     (events w)).
Proof.
  induction order as [|[name value] order IH]; intros w; simpl.
  - unfold ret. now rewrite set_ExtensionToLanguage_id, world_eta.
  - unfold bind at 1. rewrite extension_inner_run, IH. reflexivity.
Qed.

Lemma feature_loop_run order : forall w,
  Forall (fun e => is_Some (ProcessLanguage (Complexity (globals w)) e.2)) order ->
  forM_ order feature_body w =
  (Ret tt,
   mkWorld
     (set_LanguageFeatures
        (features_after (Complexity (globals w)) order
           (LanguageFeatures (globals w))) (globals w))
     (events w)).
Proof.
  induction order as [|[name value] order IH]; intros w Hall; simpl.
  - unfold ret. now rewrite set_LanguageFeatures_id, world_eta.
  - apply Forall_cons in Hall as [[lf Hlf] Hall]. simpl in Hlf.
    unfold bind at 1. unfold feature_body at 1, bind, gets, checked.
    rewrite Hlf. unfold ret, modify. simpl.
    rewrite IH by exact Hall. simpl. reflexivity.
Qed.

Lemma feature_loop_Ret order : forall w w',
  forM_ order feature_body w = (Ret tt, w') ->
  Forall (fun e => is_Some (ProcessLanguage (Complexity (globals w)) e.2)) order.
Proof.
  induction order as [|[name value] order IH]; intros w w' H; [constructor|].
  simpl in H. unfold bind at 1 in H. unfold feature_body at 1, bind, gets, checked in H.
  destruct (ProcessLanguage (Complexity (globals w)) value) as [lf|] eqn:Hlf;
    [|discriminate].
  unfold ret, modify in H. simpl in H.
  constructor; [simpl; rewrite Hlf; eauto|].
  apply IH in H. exact H.
Qed.

Lemma ProcessConstants_unfold rt :
  ProcessConstants rt =
    (database <- loadDatabase rt ;;
     forM_ (range_extensions rt database) (fun entry : string * Language.t =>
       let '(name, value) := entry in
       forM_ (Language.Extensions value) (fun ext =>
         modify (fun g =>
           set_ExtensionToLanguage (<[ext := name]> (ExtensionToLanguage g)) g))) ;;
     trace <- gets Trace ;;
     when trace
       (emit (EvPrintTrace "nanoseconds build extension to language: %d")) ;;
     forM_ (range_features rt database) feature_body ;;
     trace <- gets Trace ;;
     when trace (emit (EvPrintTrace "milliseconds build language features: %d"))).
Proof. reflexivity. Qed.

Lemma ProcessConstants_total rt db w :
  decoded_table rt = Success db ->
  Forall (fun e => is_Some (ProcessLanguage (Complexity (globals w)) e.2))
    (range_features rt db) ->
  ProcessConstants rt w = (Ret tt, ProcessConstants_world rt db w).
Proof.
  intros Hdb Hall. rewrite ProcessConstants_unfold.
  unfold bind at 1. rewrite (loadDatabase_Success _ _ _ Hdb).
  unfold bind at 1. rewrite extension_loop_run. simpl.
  unfold bind at 1, gets at 1. simpl.
  unfold bind at 1.
  unfold ProcessConstants_world, ProcessConstants_trace.
  destruct w as [g evs]. simpl in *.
  destruct (Trace g) eqn:Ht; simpl; unfold emit, ret; simpl.
  - unfold bind at 1. rewrite feature_loop_run by exact Hall. simpl.
    unfold bind, gets. simpl. rewrite Ht. simpl. unfold emit. simpl.
    now rewrite <- !app_assoc.
  - unfold bind at 1. rewrite feature_loop_run by exact Hall. simpl.
    unfold bind, gets. simpl. rewrite Ht. simpl. unfold ret.
    reflexivity.
Qed.

Lemma ProcessConstants_Ret rt w w' :
  ProcessConstants rt w = (Ret tt, w') ->
  exists db,
    decoded_table rt = Success db /\
    Forall (fun e => is_Some (ProcessLanguage (Complexity (globals w)) e.2))
      (range_features rt db) /\
    w' = ProcessConstants_world rt db w.
Proof.
  intros H.
  destruct (decoded_table rt) as [db|err] eqn:Hdb.
  - exists db. split; [reflexivity|].
    assert (Hall : Forall
      (fun e => is_Some (ProcessLanguage (Complexity (globals w)) e.2))
      (range_features rt db)).
    { rewrite ProcessConstants_unfold in H.
      unfold bind at 1 in H. rewrite (loadDatabase_Success _ _ _ Hdb) in H.
      unfold bind at 1 in H. rewrite extension_loop_run in H. simpl in H.
      unfold bind at 1, gets at 1 in H. simpl in H.
      unfold bind at 1 in H.
      destruct (when _ _ _) as [[[]|p] w1] eqn:Hw; [|discriminate].
      unfold bind at 1 in H.
      destruct (forM_ _ feature_body w1) as [[[]|p] w2] eqn:Hloop; [|discriminate].
      apply feature_loop_Ret in Hloop.
      destruct (Trace (globals w)); simpl in Hw; unfold emit, ret in Hw;
        inversion Hw; subst w1; simpl in Hloop; exact Hloop. }
    split; [exact Hall|].
    rewrite (ProcessConstants_total _ _ _ Hdb Hall) in H. congruence.
  - destruct (loadDatabase_Failure _ _ w Hdb) as [msg Hmsg].
    unfold ProcessConstants, bind in H. rewrite Hmsg in H. discriminate.
Qed.

(** ** The tables after the loops *)

Lemma extension_inner_lookup name exts ext : forall m : gmap string string,
  foldl (fun m ext => <[ext := name]> m) m exts !! ext =
    if decide (ext ∈ exts) then Some name else m !! ext.
Proof.
  induction exts as [|x exts IH]; intros m; cbn [foldl].
  - case_decide as H; [inversion H | reflexivity].
  - rewrite IH. destruct (decide (ext ∈ exts)) as [Hin|Hnin].
    + rewrite decide_True; [reflexivity | now right].
    + destruct (decide (ext = x)) as [->|Hne].
      * rewrite lookup_insert_eq. rewrite decide_True; [reflexivity | left].
      * rewrite lookup_insert_ne by congruence.
        rewrite decide_False; [reflexivity|].
        intros H. apply elem_of_cons in H as [?|?]; contradiction.
Qed.

Lemma extensions_after_cons e order m :
  extensions_after (e :: order) m =
    extensions_after order
      (foldl (fun m ext => <[ext := e.1]> m) m (Language.Extensions e.2)).
Proof. reflexivity. Qed.

Lemma extensions_after_undeclared order ext : forall m : gmap string string,
  (forall e, e ∈ order -> ext ∉ Language.Extensions e.2) ->
  extensions_after order m !! ext = m !! ext.
Proof.
  induction order as [|e order IH]; intros m H; [reflexivity|].
  rewrite extensions_after_cons, IH.
  - rewrite extension_inner_lookup, decide_False; [reflexivity|].
    apply H. left.
  - intros e' He'. apply H. now right.
Qed.

Lemma extensions_after_owner order ext name : forall m : gmap string string,
  (forall e, e ∈ order -> ext ∈ Language.Extensions e.2 -> e.1 = name) ->
  (exists e, e ∈ order /\ ext ∈ Language.Extensions e.2) ->
  extensions_after order m !! ext = Some name.
Proof.
  induction order as [|e order IH]; intros m Hown [e' [He' Hdecl]].
  - inversion He'.
  - rewrite extensions_after_cons.
    destruct (decide (Exists (fun e => ext ∈ Language.Extensions e.2) order))
      as [Hex|Hnex].
    + apply IH.
      * intros e0 He0. apply Hown. now right.
      * apply Exists_exists in Hex. exact Hex.
    + rewrite extensions_after_undeclared.
      * apply elem_of_cons in He' as [->|He'].
        -- rewrite extension_inner_lookup, decide_True by exact Hdecl.
           f_equal. apply Hown; [left | exact Hdecl].
        -- exfalso. apply Hnex, Exists_exists. eauto.
      * intros e0 He0 Hin. apply Hnex, Exists_exists. eauto.
Qed.

Lemma extensions_after_value order ext name : forall m : gmap string string,
  extensions_after order m !! ext = Some name ->
  m !! ext = Some name \/
  exists value, (name, value) ∈ order /\ ext ∈ Language.Extensions value.
Proof.
  induction order as [|[n v] order IH]; intros m H; [now left|].
  rewrite extensions_after_cons in H. apply IH in H as [H|[value [Hin Hext]]].
  - rewrite extension_inner_lookup in H. simpl in H.
    destruct (decide (ext ∈ Language.Extensions v)) as [Hd|Hd].
    + inversion H; subst. right. exists v. split; [left | exact Hd].
    + now left.
  - right. exists value. split; [now right | exact Hext].
Qed.

Lemma features_after_cons c e order m :
  features_after c (e :: order) m =
    features_after c order
      (match ProcessLanguage c e.2 with
       | Some lf => <[e.1 := lf]> m
       | None => m
       end).
Proof. reflexivity. Qed.

Lemma features_after_other c order name :
  forall m : gmap string LanguageFeature.t,
  name ∉ order.*1 ->
  features_after c order m !! name = m !! name.
Proof.
  induction order as [|[n v] order IH]; intros m H; [reflexivity|].
  rewrite features_after_cons, IH.
  - simpl. destruct (ProcessLanguage c v); [|reflexivity].
    apply lookup_insert_ne. intros ->. apply H. simpl. left.
  - intros Hin. apply H. simpl. now right.
Qed.

Lemma features_after_lookup c order name value :
  forall m : gmap string LanguageFeature.t,
  NoDup order.*1 ->
  (name, value) ∈ order ->
  is_Some (ProcessLanguage c value) ->
  features_after c order m !! name = ProcessLanguage c value.
Proof.
  induction order as [|[n v] order IH]; intros m Hnd Hin Hsome.
  - inversion Hin.
  - rewrite features_after_cons. simpl in Hnd. apply NoDup_cons in Hnd as [Hn Hnd].
    apply elem_of_cons in Hin as [Heq|Hin].
    + inversion Heq; subst n v. rewrite features_after_other by exact Hn.
      simpl. destruct Hsome as [lf Hlf]. rewrite Hlf. apply lookup_insert_eq.
    + now apply IH.
Qed.

Lemma features_after_keeps c order name :
  forall m : gmap string LanguageFeature.t,
  is_Some (m !! name) -> is_Some (features_after c order m !! name).
Proof.
  induction order as [|[n v] order IH]; intros m H; [exact H|].
  rewrite features_after_cons. apply IH. simpl.
  destruct (ProcessLanguage c v); [|exact H].
  destruct (decide (n = name)) as [->|Hne].
  - rewrite lookup_insert_eq. eauto.
  - now rewrite lookup_insert_ne.
Qed.

Lemma range_ok_elem rng db name value :
  range_ok rng -> ((name, value) ∈ rng db <-> db !! name = Some value).
Proof.
  intros H. rewrite (H db). apply elem_of_map_to_list.
Qed.

Lemma range_ok_NoDup rng db : range_ok rng -> NoDup (rng db).*1.
Proof.
  intros H. rewrite (H db). apply NoDup_fst_map_to_list.
Qed.

(** After a returning [ProcessConstants] every language of the database
    has the features [ProcessLanguage] compiles for it under the value
    the [Complexity] flag had on entry. *)
Lemma ProcessConstants_compiled rt w w' db name value :
  range_ok (range_features rt) ->
  ProcessConstants rt w = (Ret tt, w') ->
  decoded_table rt = Success db ->
  db !! name = Some value ->
  exists lf,
    LanguageFeatures (globals w') !! name = Some lf /\
    ProcessLanguage (Complexity (globals w)) value = Some lf.
Proof.
  intros Hok Hrun Hdb Hval.
  apply ProcessConstants_Ret in Hrun as [db' [Hdb' [Hall ->]]].
  rewrite Hdb in Hdb'. inversion Hdb'; subst db'.
  assert (Hin : (name, value) ∈ range_features rt db)
    by (now apply range_ok_elem).
  assert (Hsome : is_Some (ProcessLanguage (Complexity (globals w)) value)).
  { rewrite Forall_forall in Hall. exact (Hall _ Hin). }
  destruct Hsome as [lf Hlf]. exists lf. split; [|exact Hlf].
  simpl. rewrite <- Hlf.
  apply features_after_lookup; [now apply range_ok_NoDup | exact Hin | eauto].
Qed.

Lemma runtime_ok_demo : runtime_ok demo_runtime.
Proof. repeat split; intros db; reflexivity. Qed.

Lemma runtime_ok_reversed rt : runtime_ok rt -> runtime_ok (reversed rt).
Proof.
  intros (H1 & H2 & H3).
  repeat split; intros db; simpl; rewrite reverse_Permutation; auto.
Qed.

(** ** Properties of the compiled features *)

Lemma mapM_elem {X} (first : X -> option Z) (l : list X) bs v b :
  mapM first l = Some bs -> v ∈ l -> first v = Some b -> b ∈ bs.
Proof.
  intros HM Hin Hb. apply mapM_Some in HM.
  induction HM as [|x y l k Hxy HM IH]; [inversion Hin|].
  apply elem_of_cons in Hin as [->|Hin].
  - rewrite Hb in Hxy. inversion Hxy. left.
  - right. now apply IH.
Qed.

Lemma pair_first_opener v tok b :
  is_Some (pair_first v) -> v !! 0%nat = Some tok -> string_index0 tok = Some b ->
  pair_first v = Some b.
Proof.
  unfold pair_first. intros [b' H] H0 Hb. rewrite H0 in *. simpl in *.
  rewrite Hb in *. simpl in *. destruct (v !! 1%nat); [reflexivity|discriminate].
Qed.

Lemma mapM_elem_is_Some {X} (first : X -> option Z) (l : list X) bs v :
  mapM first l = Some bs -> v ∈ l -> is_Some (first v).
Proof.
  intros HM Hin. apply mapM_Some in HM.
  induction HM as [|x y l k Hxy HM IH]; [inversion Hin|].
  apply elem_of_cons in Hin as [->|Hin]; [eauto | now apply IH].
Qed.

(** Each category mask is the OR of a list of bytes that holds the first
    byte of every token of the category. *)
Lemma category_mask_first_bytes c value lf cat :
  ProcessLanguage c value = Some lf ->
  exists bs,
    category_mask cat lf = or_bytes 0 bs /\
    forall tok b,
      tok ∈ category_tokens cat value -> string_index0 tok = Some b -> b ∈ bs.
Proof.
  rewrite ProcessLanguage_closed_form. intros H.
  destruct (mapM string_index0 (Language.ComplexityChecks value)) as [cb|] eqn:Hc;
    [|discriminate].
  destruct (mapM string_index0 (Language.LineComment value)) as [sb|] eqn:Hs;
    [|discriminate].
  destruct (mapM pair_first (Language.MultiLine value)) as [mb|] eqn:Hm;
    [|discriminate].
  destruct (mapM pair_first (Language.Quotes value)) as [qb|] eqn:Hq;
    [|discriminate].
  simpl in H. inversion H; subst lf; clear H.
  destruct cat; simpl.
  - exists qb. split; [reflexivity|]. intros tok b Hin Hb.
    apply list_elem_of_omap in Hin as [v [Hv H0]].
    eapply mapM_elem; [exact Hq | exact Hv |].
    eapply pair_first_opener; eauto using mapM_elem_is_Some.
  - exists sb. split; [reflexivity|]. intros tok b Hin Hb.
    eapply mapM_elem; eauto.
  - exists mb. split; [reflexivity|]. intros tok b Hin Hb.
    apply list_elem_of_omap in Hin as [v [Hv H0]].
    eapply mapM_elem; [exact Hm | exact Hv |].
    eapply pair_first_opener; eauto using mapM_elem_is_Some.
  - exists cb. split; [reflexivity|]. intros tok b Hin Hb.
    eapply mapM_elem; eauto.
Qed.

Lemma ProcessLanguage_Tokens c value lf :
  ProcessLanguage c value = Some lf ->
  LanguageFeature.Tokens lf =
    (if c then []
     else plain_call T_COMPLEXITY <$> Language.ComplexityChecks value) ++
    (plain_call T_SLCOMMENT <$> Language.LineComment value) ++
    (pair_call T_MLCOMMENT <$> Language.MultiLine value) ++
    (pair_call T_STRING <$> Language.Quotes value) /\
  LanguageFeature.Complexity lf =
    plain_call T_COMPLEXITY <$> Language.ComplexityChecks value.
Proof.
  rewrite ProcessLanguage_closed_form. intros H.
  destruct (mapM string_index0 (Language.ComplexityChecks value)); [|discriminate].
  destruct (mapM string_index0 (Language.LineComment value)); [|discriminate].
  destruct (mapM pair_first (Language.MultiLine value)); [|discriminate].
  destruct (mapM pair_first (Language.Quotes value)); [|discriminate].
  simpl in H. inversion H; subst lf. simpl. split; reflexivity.
Qed.

Lemma ProcessLanguage_ProcessMask c value lf :
  ProcessLanguage c value = Some lf ->
  LanguageFeature.ProcessMask lf =
    Z.lor (Z.lor (Z.lor
      (if c then 0 else LanguageFeature.ComplexityCheckMask lf)
      (LanguageFeature.SingleLineCommentMask lf))
      (LanguageFeature.MultiLineCommentMask lf))
      (LanguageFeature.StringCheckMask lf).
Proof.
  rewrite ProcessLanguage_closed_form. intros H.
  destruct (mapM string_index0 (Language.ComplexityChecks value)); [|discriminate].
  destruct (mapM string_index0 (Language.LineComment value)); [|discriminate].
  destruct (mapM pair_first (Language.MultiLine value)); [|discriminate].
  destruct (mapM pair_first (Language.Quotes value)); [|discriminate].
  simpl in H. inversion H; subst lf. simpl. reflexivity.
Qed.

Lemma mapM_string_index0 l :
  Forall (fun v => v <> EmptyString) l -> is_Some (mapM string_index0 l).
Proof.
  intros H. apply mapM_is_Some_2. eapply Forall_impl; [exact H|].
  intros [|c s] Hne; [contradiction | simpl; eauto].
Qed.

(** The compilation of a language returns exactly when every index
    expression is in range. *)
Lemma ProcessLanguage_total c value :
  compilable value <-> is_Some (ProcessLanguage c value).
Proof.
  rewrite ProcessLanguage_closed_form. unfold compilable. split.
  - intros (Hc & Hs & Hm & Hq).
    destruct (mapM_string_index0 _ Hc) as [cb ->].
    destruct (mapM_string_index0 _ Hs) as [sb ->].
    destruct (mapM_is_Some_2 pair_first _ Hm) as [mb ->].
    destruct (mapM_is_Some_2 pair_first _ Hq) as [qb ->].
    simpl. eauto.
  - intros [lf H].
    destruct (mapM string_index0 (Language.ComplexityChecks value)) as [cb|] eqn:Hc;
      [|discriminate].
    destruct (mapM string_index0 (Language.LineComment value)) as [sb|] eqn:Hs;
      [|discriminate].
    destruct (mapM pair_first (Language.MultiLine value)) as [mb|] eqn:Hm;
      [|discriminate].
    destruct (mapM pair_first (Language.Quotes value)) as [qb|] eqn:Hq;
      [|discriminate].
    repeat split; apply Forall_forall; intros v Hv.
    + destruct (mapM_elem_is_Some _ _ _ _ Hc Hv) as [b Hb]. now destruct v.
    + destruct (mapM_elem_is_Some _ _ _ _ Hs Hv) as [b Hb]. now destruct v.
    + exact (mapM_elem_is_Some _ _ _ _ Hm Hv).
    + exact (mapM_elem_is_Some _ _ _ _ Hq Hv).
Qed.

(** ** [processFlags] *)

Lemma processFlags_run w :
  processFlags w =
    (Ret tt,
     mkWorld (processFlags_globals (globals w))
       (events w ++
        trace_events (Debug (globals w))
          (processFlags_debug (processFlags_globals (globals w))))).
Proof.
  destruct w as [g evs]. unfold processFlags, processFlags_globals.
  unfold bind, gets, when, modify, emit, ret. simpl.
  destruct (More g && Complexity g) eqn:Hmc; simpl;
    destruct (Debug g) eqn:Hd; simpl;
    rewrite ?Hd; simpl; rewrite <- ?app_assoc, ?app_nil_r; reflexivity.
Qed.

Lemma processFlags_globals_Complexity g :
  Complexity (processFlags_globals g) = Complexity g && negb (More g).
Proof.
  unfold processFlags_globals.
  destruct (More g) eqn:Hm, (Complexity g) eqn:Hc; simpl; rewrite ?Hc; reflexivity.
Qed.

Lemma processFlags_globals_LanguageFeatures g :
  LanguageFeatures (processFlags_globals g) = LanguageFeatures g.
Proof. unfold processFlags_globals. now destruct (More g && Complexity g). Qed.

Lemma processFlags_globals_frame g :
  same_except_Complexity g (processFlags_globals g).
Proof.
  unfold processFlags_globals, same_except_Complexity.
  destruct (More g && Complexity g); simpl; repeat split; reflexivity.
Qed.

(** ** C1: complexity tokens and the combined trie *)

(** C1, as the code has it: after [ProcessConstants], for every language
    of the table, the complexity tokens are inserted into the combined
    trie [Tokens] exactly when the [Complexity] flag is false, and under a
    true flag [Tokens] receives no complexity insertion at all; in both
    cases they are inserted into the dedicated [Complexity] trie.  The
    flag is the disabling side of the toggle: the debug output of
    [processFlags] prints the calculation state as its negation. *)
Theorem complexity_tokens_in_token_trie rt w w' db name value :
  range_ok (range_features rt) ->
  ProcessConstants rt w = (Ret tt, w') ->
  decoded_table rt = Success db ->
  db !! name = Some value ->
  exists lf,
    LanguageFeatures (globals w') !! name = Some lf /\
    (forall v, v ∈ Language.ComplexityChecks value ->
       (plain_call T_COMPLEXITY v ∈ LanguageFeature.Tokens lf <->
          Complexity (globals w) = false) /\
       plain_call T_COMPLEXITY v ∈ LanguageFeature.Complexity lf) /\
    (Complexity (globals w) = true ->
       forall tok, Trie.InsertCall T_COMPLEXITY tok ∉ LanguageFeature.Tokens lf) /\
    (forall w1, Debug (globals w1) = true ->
       EvPrintDebug "Complexity Calculation: %t"
         (ArgBool (negb (Complexity (globals (processFlags w1).2))))
       ∈ events (processFlags w1).2).
Proof.
  intros Hok Hrun Hdb Hval.
  destruct (ProcessConstants_compiled _ _ _ _ _ _ Hok Hrun Hdb Hval)
    as [lf [Hlf Hcomp]].
  exists lf. split; [exact Hlf|].
  destruct (ProcessLanguage_Tokens _ _ _ Hcomp) as [Htok Hcx].
  assert (Hnone : forall tok,
    Trie.InsertCall T_COMPLEXITY tok ∉
      (plain_call T_SLCOMMENT <$> Language.LineComment value) ++
      (pair_call T_MLCOMMENT <$> Language.MultiLine value) ++
      (pair_call T_STRING <$> Language.Quotes value)).
  { intros tok Hin. rewrite !elem_of_app, !list_elem_of_fmap in Hin.
    destruct Hin as [[y [Hy _]]|[[y [Hy _]]|[y [Hy _]]]]; discriminate. }
  split; [|split].
  - intros v Hv. split.
    + rewrite Htok. destruct (Complexity (globals w)); simpl.
      * split; [|discriminate]. intros Hin. exfalso. exact (Hnone _ Hin).
      * split; [reflexivity|]. intros _. apply elem_of_app. left.
        apply list_elem_of_fmap. eauto.
    + rewrite Hcx. apply list_elem_of_fmap. eauto.
  - intros Hc tok. rewrite Htok, Hc. simpl. apply Hnone.
  - intros w1 Hd. rewrite processFlags_run. simpl. rewrite Hd. simpl.
    apply elem_of_app. right. unfold processFlags_debug.
    do 6 right. left.
Qed.

Lemma complexity_tokens_in_token_trie_witness :
  exists lf,
    LanguageFeatures (globals (ProcessConstants demo_runtime w0).2) !! "C" = Some lf /\
    (forall v, v ∈ Language.ComplexityChecks demo_c ->
       (plain_call T_COMPLEXITY v ∈ LanguageFeature.Tokens lf <->
          Complexity (globals w0) = false) /\
       plain_call T_COMPLEXITY v ∈ LanguageFeature.Complexity lf) /\
    (Complexity (globals w0) = true ->
       forall tok, Trie.InsertCall T_COMPLEXITY tok ∉ LanguageFeature.Tokens lf) /\
    (forall w1, Debug (globals w1) = true ->
       EvPrintDebug "Complexity Calculation: %t"
         (ArgBool (negb (Complexity (globals (processFlags w1).2))))
       ∈ events (processFlags w1).2).
Proof.
  apply (complexity_tokens_in_token_trie demo_runtime w0
           (ProcessConstants demo_runtime w0).2 demo_database "C" demo_c).
  - intros db. reflexivity.
  - vm_compute. reflexivity.
  - reflexivity.
  - vm_compute. reflexivity.
Defined.

(** C1 as the spec words it fails: with the [Complexity] flag true
    (accounting disabled) the token "if " of the sample language is not
    inserted into the combined trie, and with the flag false (accounting
    enabled) it is. *)
Lemma complexity_tokens_counterexample :
  (exists lf,
     compiled demo_runtime (initial_world complexity_disabled) "C" = Some lf /\
     "if " ∈ Language.ComplexityChecks demo_c /\
     plain_call T_COMPLEXITY "if " ∉ LanguageFeature.Tokens lf) /\
  (exists lf,
     compiled demo_runtime (initial_world (initial_globals 4)) "C" = Some lf /\
     plain_call T_COMPLEXITY "if " ∈ LanguageFeature.Tokens lf).
Proof.
  split.
  - eexists. split; [vm_compute; reflexivity|]. split; [left|].
    intros H. vm_compute in H.
    repeat (apply elem_of_cons in H as [H|H]; [discriminate|]).
    inversion H.
  - eexists. split; [vm_compute; reflexivity|]. vm_compute. left.
Qed.

(** ** C2: the global dispatch mask *)

(** C2, as the code has it: after [ProcessConstants], the [ProcessMask] of
    every language of the table is the bitwise OR of the single-line
    comment, multi-line comment and string masks, together with the
    complexity mask exactly when the [Complexity] flag is false. *)
Theorem process_mask_is_or_of_masks rt w w' db name value :
  range_ok (range_features rt) ->
  ProcessConstants rt w = (Ret tt, w') ->
  decoded_table rt = Success db ->
  db !! name = Some value ->
  exists lf,
    LanguageFeatures (globals w') !! name = Some lf /\
    LanguageFeature.ProcessMask lf =
      Z.lor (Z.lor (Z.lor
        (if Complexity (globals w) then 0
         else LanguageFeature.ComplexityCheckMask lf)
        (LanguageFeature.SingleLineCommentMask lf))
        (LanguageFeature.MultiLineCommentMask lf))
        (LanguageFeature.StringCheckMask lf).
Proof.
  intros Hok Hrun Hdb Hval.
  destruct (ProcessConstants_compiled _ _ _ _ _ _ Hok Hrun Hdb Hval)
    as [lf [Hlf Hcomp]].
  exists lf. split; [exact Hlf|].
  now apply ProcessLanguage_ProcessMask with (value := value).
Qed.

Lemma process_mask_is_or_of_masks_witness :
  exists lf,
    LanguageFeatures
      (globals (ProcessConstants demo_runtime (initial_world complexity_disabled)).2)
      !! "C" = Some lf /\
    LanguageFeature.ProcessMask lf =
      Z.lor (Z.lor (Z.lor
        (if Complexity (globals (initial_world complexity_disabled)) then 0
         else LanguageFeature.ComplexityCheckMask lf)
        (LanguageFeature.SingleLineCommentMask lf))
        (LanguageFeature.MultiLineCommentMask lf))
        (LanguageFeature.StringCheckMask lf).
Proof.
  apply (process_mask_is_or_of_masks demo_runtime
           (initial_world complexity_disabled)
           (ProcessConstants demo_runtime (initial_world complexity_disabled)).2
           demo_database "C" demo_c).
  - intros db. reflexivity.
  - vm_compute. reflexivity.
  - reflexivity.
  - vm_compute. reflexivity.
Defined.

(** C2 as the spec words it fails under a true [Complexity] flag: the
    sample language gets the complexity mask 111 and the other masks 47,
    47 and 39, and its [ProcessMask] is 47, not their OR 111. *)
Lemma process_mask_counterexample :
  exists lf,
    compiled demo_runtime (initial_world complexity_disabled) "C" = Some lf /\
    LanguageFeature.ProcessMask lf = 47 /\
    Z.lor (Z.lor (Z.lor
      (LanguageFeature.ComplexityCheckMask lf)
      (LanguageFeature.SingleLineCommentMask lf))
      (LanguageFeature.MultiLineCommentMask lf))
      (LanguageFeature.StringCheckMask lf) = 111 /\
    LanguageFeature.ProcessMask lf <>
      Z.lor (Z.lor (Z.lor
        (LanguageFeature.ComplexityCheckMask lf)
        (LanguageFeature.SingleLineCommentMask lf))
        (LanguageFeature.MultiLineCommentMask lf))
        (LanguageFeature.StringCheckMask lf).
Proof.
  eexists. split; [vm_compute; reflexivity|].
  repeat split; vm_compute; congruence.
Qed.

(** ** C5: masks cover the first bytes *)

(** C5, as the code has it: after [ProcessConstants], for every language
    of the table and every category, every bit of the first byte of every
    token of the category (for the paired categories, of every opener) is
    set in the category's mask; consequently a non-zero scan byte whose
    AND with the category mask is zero is the first byte of no token of
    the category. *)
Theorem mask_covers_first_bytes rt w w' db name value :
  range_ok (range_features rt) ->
  ProcessConstants rt w = (Ret tt, w') ->
  decoded_table rt = Success db ->
  db !! name = Some value ->
  exists lf,
    LanguageFeatures (globals w') !! name = Some lf /\
    forall cat,
      (forall tok b,
         tok ∈ category_tokens cat value -> string_index0 tok = Some b ->
         Z.land b (category_mask cat lf) = b) /\
      (forall b,
         b <> 0 -> Z.land b (category_mask cat lf) = 0 ->
         forall tok, tok ∈ category_tokens cat value -> string_index0 tok <> Some b).
Proof.
  intros Hok Hrun Hdb Hval.
  destruct (ProcessConstants_compiled _ _ _ _ _ _ Hok Hrun Hdb Hval)
    as [lf [Hlf Hcomp]].
  exists lf. split; [exact Hlf|]. intros cat.
  destruct (category_mask_first_bytes _ _ _ cat Hcomp) as [bs [Hmask Hbs]].
  assert (Hcover : forall tok b,
    tok ∈ category_tokens cat value -> string_index0 tok = Some b ->
    Z.land b (category_mask cat lf) = b).
  { intros tok b Hin Hb. rewrite Hmask. apply or_bytes_covers. eauto. }
  split; [exact Hcover|].
  intros b Hnz Hzero tok Hin Hb.
  rewrite (Hcover _ _ Hin Hb) in Hzero. contradiction.
Qed.

Lemma mask_covers_first_bytes_witness :
  exists lf,
    LanguageFeatures (globals (ProcessConstants demo_runtime w0).2) !! "C" = Some lf /\
    forall cat,
      (forall tok b,
         tok ∈ category_tokens cat demo_c -> string_index0 tok = Some b ->
         Z.land b (category_mask cat lf) = b) /\
      (forall b,
         b <> 0 -> Z.land b (category_mask cat lf) = 0 ->
         forall tok, tok ∈ category_tokens cat demo_c -> string_index0 tok <> Some b).
Proof.
  apply (mask_covers_first_bytes demo_runtime w0
           (ProcessConstants demo_runtime w0).2 demo_database "C" demo_c).
  - intros db. reflexivity.
  - vm_compute. reflexivity.
  - reflexivity.
  - vm_compute. reflexivity.
Defined.

(** C5 as the spec words it fails at the scan byte 0: the complexity mask
    of [nul_language] is 0, the AND of the byte 0 with it is zero, and
    the byte 0 is the first byte of the language's complexity token. *)
Lemma mask_zero_byte_counterexample :
  exists lf,
    compiled nul_runtime w0 "N" = Some lf /\
    ~ (forall b,
         Z.land b (category_mask T_COMPLEXITY lf) = 0 ->
         forall tok,
           tok ∈ category_tokens T_COMPLEXITY nul_language ->
           string_index0 tok <> Some b).
Proof.
  eexists. split; [vm_compute; reflexivity|].
  intros H. apply (H 0 eq_refl (String Ascii.zero "x")); [left | reflexivity].
Qed.

(** ** C6: extension resolution *)

(** C6: [ProcessConstants] keeps and, from the empty tables, establishes
    the invariant that every language an extension resolves to has
    compiled features; each extension resolves to one language. *)
Theorem extension_resolution_many_to_one rt w w' :
  runtime_ok rt ->
  tables_consistent (globals w) ->
  ProcessConstants rt w = (Ret tt, w') ->
  (forall ext n1 n2,
     ExtensionToLanguage (globals w') !! ext = Some n1 ->
     ExtensionToLanguage (globals w') !! ext = Some n2 -> n1 = n2) /\
  (forall ext name,
     ExtensionToLanguage (globals w') !! ext = Some name ->
     is_Some (LanguageFeatures (globals w') !! name)).
Proof.
  intros (Hext & Hfeat & _) Hinv Hrun.
  split; [intros ext n1 n2 H1 H2; congruence|].
  apply ProcessConstants_Ret in Hrun as [db [Hdb [Hall ->]]].
  intros ext name Hres. simpl in *.
  apply extensions_after_value in Hres as [Hold|[value [Hin Hdecl]]].
  - apply features_after_keeps. eapply Hinv. exact Hold.
  - apply (range_ok_elem _ db name value Hext) in Hin.
    apply (range_ok_elem _ db name value Hfeat) in Hin.
    assert (Hsome : is_Some (ProcessLanguage (Complexity (globals w)) value)).
    { rewrite Forall_forall in Hall. exact (Hall _ Hin). }
    rewrite (features_after_lookup _ _ name value);
      [exact Hsome | now apply range_ok_NoDup | exact Hin | exact Hsome].
Qed.

Lemma extension_resolution_many_to_one_witness :
  (forall ext n1 n2,
     ExtensionToLanguage (globals (ProcessConstants demo_runtime w0).2) !! ext = Some n1 ->
     ExtensionToLanguage (globals (ProcessConstants demo_runtime w0).2) !! ext = Some n2 ->
     n1 = n2) /\
  (forall ext name,
     ExtensionToLanguage (globals (ProcessConstants demo_runtime w0).2) !! ext = Some name ->
     is_Some (LanguageFeatures (globals (ProcessConstants demo_runtime w0).2) !! name)).
Proof.
  apply (extension_resolution_many_to_one demo_runtime w0
           (ProcessConstants demo_runtime w0).2).
  - repeat split; intros db; reflexivity.
  - intros ext name H. vm_compute in H. discriminate.
  - vm_compute. reflexivity.
Defined.

(** ** C7: two runs of the extension loop *)

Lemma extensions_after_table db order ext (m : gmap string string) :
  order ≡ₚ map_to_list db ->
  unambiguous db ->
  extensions_after order m !! ext =
    match list_find (fun e : string * Language.t => ext ∈ Language.Extensions e.2)
            (map_to_list db) with
    | Some (_, e) => Some e.1
    | None => m !! ext
    end.
Proof.
  intros Hperm Hun.
  destruct (list_find _ (map_to_list db)) as [[i [n v]]|] eqn:Hfind.
  - apply list_find_Some in Hfind as (Hi & Hdecl & _). simpl in *.
    assert (Hin : (n, v) ∈ map_to_list db) by (eapply list_elem_of_lookup_2; eauto).
    apply extensions_after_owner.
    + intros [n' v'] He' Hd'. simpl in *. rewrite Hperm in He'.
      apply elem_of_map_to_list in He', Hin. eapply Hun; eauto.
    + exists (n, v). split; [now rewrite Hperm | exact Hdecl].
  - apply list_find_None in Hfind. rewrite Forall_forall in Hfind.
    apply extensions_after_undeclared. intros e He. apply Hfind.
    now rewrite <- Hperm.
Qed.

(** C7, as the code has it: on a table in which no extension is declared
    by two different languages, two runs of [ProcessConstants] from the
    same state produce the same [ExtensionToLanguage], whatever order the
    runtime enumerates the table in, and a second run after the first
    leaves the mapping as the first run made it. *)
Theorem extension_resolution_two_runs rt1 rt2 db w w1 w2 :
  range_ok (range_extensions rt1) ->
  range_ok (range_extensions rt2) ->
  decoded_table rt1 = Success db ->
  decoded_table rt2 = Success db ->
  unambiguous db ->
  ProcessConstants rt1 w = (Ret tt, w1) ->
  ProcessConstants rt2 w = (Ret tt, w2) ->
  ExtensionToLanguage (globals w1) = ExtensionToLanguage (globals w2) /\
  (forall w3,
     ProcessConstants rt2 w1 = (Ret tt, w3) ->
     ExtensionToLanguage (globals w3) = ExtensionToLanguage (globals w1)).
Proof.
  intros Hr1 Hr2 Hd1 Hd2 Hun Hrun1 Hrun2.
  apply ProcessConstants_Ret in Hrun1 as [db1 [Hdb1 [_ ->]]].
  apply ProcessConstants_Ret in Hrun2 as [db2 [Hdb2 [_ ->]]].
  rewrite Hd1 in Hdb1. rewrite Hd2 in Hdb2.
  inversion Hdb1; inversion Hdb2; subst db1 db2. simpl.
  split.
  - apply map_eq. intros ext.
    rewrite (extensions_after_table db _ ext _ (Hr1 db) Hun).
    rewrite (extensions_after_table db _ ext _ (Hr2 db) Hun).
    reflexivity.
  - intros w3 Hrun3.
    apply ProcessConstants_Ret in Hrun3 as [db3 [Hdb3 [_ ->]]].
    rewrite Hd2 in Hdb3. inversion Hdb3; subst db3. simpl.
    apply map_eq. intros ext.
    rewrite (extensions_after_table db _ ext _ (Hr2 db) Hun).
    rewrite (extensions_after_table db _ ext _ (Hr1 db) Hun).
    destruct (list_find _ (map_to_list db)) as [[i e]|]; reflexivity.
Qed.

Lemma disjoint_database_unambiguous : unambiguous disjoint_database.
Proof.
  intros n1 v1 n2 v2 ext H1 H2 He1 He2.
  unfold disjoint_database in *.
  apply lookup_insert_Some in H1 as [[<- <-]|[_ H1]];
    apply lookup_insert_Some in H2 as [[<- <-]|[_ H2]]; try reflexivity.
  - apply lookup_insert_Some in H2 as [[<- <-]|[_ H2]]; [|inversion H2].
    simpl in *. exfalso.
    repeat (apply elem_of_cons in He2 as [->|He2];
            [repeat (apply elem_of_cons in He1 as [He1|He1]; [discriminate|]);
             inversion He1|]).
    inversion He2.
  - apply lookup_insert_Some in H1 as [[<- <-]|[_ H1]]; [|inversion H1].
    simpl in *. exfalso.
    repeat (apply elem_of_cons in He1 as [->|He1];
            [repeat (apply elem_of_cons in He2 as [He2|He2]; [discriminate|]);
             inversion He2|]).
    inversion He1.
  - apply lookup_insert_Some in H1 as [[<- <-]|[_ H1]]; [|inversion H1].
    apply lookup_insert_Some in H2 as [[<- <-]|[_ H2]]; [|inversion H2].
    reflexivity.
Qed.

Lemma extension_resolution_two_runs_witness :
  ExtensionToLanguage
    (globals (ProcessConstants (with_database disjoint_database demo_runtime) w0).2) =
  ExtensionToLanguage
    (globals
       (ProcessConstants (reversed (with_database disjoint_database demo_runtime)) w0).2) /\
  (forall w3,
     ProcessConstants (reversed (with_database disjoint_database demo_runtime))
       (ProcessConstants (with_database disjoint_database demo_runtime) w0).2 =
       (Ret tt, w3) ->
     ExtensionToLanguage (globals w3) =
     ExtensionToLanguage
       (globals (ProcessConstants (with_database disjoint_database demo_runtime) w0).2)).
Proof.
  apply (extension_resolution_two_runs
           (with_database disjoint_database demo_runtime)
           (reversed (with_database disjoint_database demo_runtime))
           disjoint_database w0).
  - intros db. reflexivity.
  - intros db. simpl. apply reverse_Permutation.
  - reflexivity.
  - reflexivity.
  - exact disjoint_database_unambiguous.
  - vm_compute. reflexivity.
  - vm_compute. reflexivity.
Defined.

(** C7 as the spec words it fails: the sample table declares the
    extension "h" for both "C" and "C Header"; two runs that enumerate
    the table in opposite orders, both legal for a Go map, resolve "h" to
    different languages. *)
Lemma extension_resolution_counterexample :
  runtime_ok demo_runtime /\ runtime_ok (reversed demo_runtime) /\
  decoded_table demo_runtime = decoded_table (reversed demo_runtime) /\
  (ProcessConstants demo_runtime w0).1 = Ret tt /\
  (ProcessConstants (reversed demo_runtime) w0).1 = Ret tt /\
  ExtensionToLanguage (globals (ProcessConstants demo_runtime w0).2) !! "h"
    = Some "C" /\
  ExtensionToLanguage (globals (ProcessConstants (reversed demo_runtime) w0).2) !! "h"
    = Some "C Header".
Proof.
  split; [exact runtime_ok_demo|].
  split; [exact (runtime_ok_reversed _ runtime_ok_demo)|].
  repeat split; vm_compute; reflexivity.
Qed.

(** ** The pipeline set-up *)


Lemma make_chan_run capacity w :
  0 <= capacity ->
  make_chan capacity w =
    (Ret (length (channels (events w))),
     mkWorld (globals w)
       (events w ++ [EvMakeChan (length (channels (events w))) capacity])).
Proof.
  intros H. unfold make_chan.
  destruct (capacity <? 0)%Z eqn:Hlt; [|reflexivity].
  apply Z.ltb_lt in Hlt. lia.
Qed.


Lemma Process_pipeline_frame rt w :
  LanguageFeatures (globals (Process_pipeline rt w).2) = LanguageFeatures (globals w) /\
  ExtensionToLanguage (globals (Process_pipeline rt w).2) =
    ExtensionToLanguage (globals w) /\
  Complexity (globals (Process_pipeline rt w).2) = Complexity (globals w).
Proof.
  destruct w as [g evs].
  unfold Process_pipeline.
  unfold bind, gets, when, modify, emit, ret, checked, make_chan, panic.
  simpl.
  destruct (DirFilePaths g) as [|p rest] eqn:Hp; simpl;
    destruct (Debug g) eqn:HD; simpl;
    rewrite ?HD; simpl;
    destruct (FileListQueueSize g <? 0)%Z; simpl; auto;
    destruct (FileReadContentJobQueueSize g <? 0)%Z; simpl; auto;
    destruct (FileSummaryJobQueueSize g <? 0)%Z; simpl; auto;
    rewrite ?Hp; simpl;
    destruct (String.eqb (FileOutput g) EmptyString); simpl; auto.
Qed.

Lemma Process_after_constants rt w w1 :
  Languages (globals w) = false ->
  ProcessConstants rt w = (Ret tt, w1) ->
  Process rt w =
    Process_pipeline rt
      (mkWorld (processFlags_globals (globals w1))
         (events w1 ++
          trace_events (Debug (globals w1))
            (processFlags_debug (processFlags_globals (globals w1))))).
Proof.
  intros HL Hrun. unfold Process.
  unfold bind at 1, gets at 1. rewrite HL.
  unfold bind at 1. rewrite Hrun.
  unfold bind at 1. rewrite processFlags_run. reflexivity.
Qed.






(** ** C3: the roots that are walked *)




(** ** C4: a malformed table *)

(** C4: when the embedded table does not decode (the base64 payload or
    the JSON is rejected), [Process] panics in [loadDatabase] and leaves
    the world as it found it: no queue is made, no goroutine is started
    and nothing is printed or written. *)
Theorem malformed_table_aborts rt err w :
  decoded_table rt = Failure err ->
  exists msg,
    Process rt w = (Panic (PanicMessage msg), w) /\
    made_channels (events (Process rt w).2) = made_channels (events w) /\
    goroutines (events (Process rt w).2) = goroutines (events w) /\
    printed (events (Process rt w).2) = printed (events w) /\
    events (Process rt w).2 = events w.
Proof.
  intros Hdb. destruct (loadDatabase_Failure rt err w Hdb) as [msg Hload].
  exists msg.
  assert (H : Process rt w = (Panic (PanicMessage msg), w)).
  { unfold Process, bind at 1, gets at 1.
    destruct (Languages (globals w)).
    - unfold printLanguages, bind. rewrite Hload. reflexivity.
    - unfold bind at 1. unfold ProcessConstants, bind at 1.
      rewrite Hload. reflexivity. }
  rewrite H. repeat split; reflexivity.
Qed.

Lemma malformed_table_aborts_witness :
  exists msg,
    Process broken_runtime w0 = (Panic (PanicMessage msg), w0) /\
    made_channels (events (Process broken_runtime w0).2) = made_channels (events w0) /\
    goroutines (events (Process broken_runtime w0).2) = goroutines (events w0) /\
    printed (events (Process broken_runtime w0).2) = printed (events w0) /\
    events (Process broken_runtime w0).2 = events w0.
Proof.
  apply (malformed_table_aborts broken_runtime
           "illegal base64 data at input byte 0" w0).
  reflexivity.
Defined.

(** ** C8: the queues between the stages *)




(** ** C9: what [processFlags] changes *)

(** C9: [processFlags] returns having changed no package variable but
    [Complexity], which it clears exactly when [More] and [Complexity]
    are both set; and since [Process] calls [ProcessConstants] first, the
    features [Process] leaves are those compiled under the value
    [Complexity] had on entry, whatever [processFlags] made of it. *)
Theorem processFlags_frame rt w w1 db name value :
  range_ok (range_features rt) ->
  Languages (globals w) = false ->
  ProcessConstants rt w = (Ret tt, w1) ->
  decoded_table rt = Success db ->
  db !! name = Some value ->
  (forall wf, exists wf',
     processFlags wf = (Ret tt, wf') /\
     same_except_Complexity (globals wf) (globals wf') /\
     Complexity (globals wf') =
       (if More (globals wf) && Complexity (globals wf) then false
        else Complexity (globals wf))) /\
  LanguageFeatures (globals (Process rt w).2) = LanguageFeatures (globals w1) /\
  LanguageFeatures (globals (Process rt w).2) !! name =
    ProcessLanguage (Complexity (globals w)) value /\
  Complexity (globals (Process rt w).2) =
    Complexity (globals w) && negb (More (globals w)).
Proof.
  intros Hok HL Hrun Hdb Hval. split.
  { intros wf. eexists. split; [apply processFlags_run|]. simpl.
    split; [apply processFlags_globals_frame|].
    unfold processFlags_globals.
    destruct (More (globals wf) && Complexity (globals wf)); reflexivity. }
  rewrite (Process_after_constants rt w w1 HL Hrun).
  destruct (Process_pipeline_frame rt
    (mkWorld (processFlags_globals (globals w1))
       (events w1 ++ trace_events (Debug (globals w1))
          (processFlags_debug (processFlags_globals (globals w1))))))
    as (HLF & _ & HC).
  rewrite HLF, HC. simpl.
  rewrite processFlags_globals_LanguageFeatures, processFlags_globals_Complexity.
  destruct (ProcessConstants_compiled _ _ _ _ _ _ Hok Hrun Hdb Hval)
    as [lf [Hlf Hcomp]].
  split; [reflexivity|]. split; [now rewrite Hlf, Hcomp|].
  apply ProcessConstants_Ret in Hrun as [db' [_ [_ ->]]]. reflexivity.
Qed.

Lemma processFlags_frame_witness :
  (forall wf, exists wf',
     processFlags wf = (Ret tt, wf') /\
     same_except_Complexity (globals wf) (globals wf') /\
     Complexity (globals wf') =
       (if More (globals wf) && Complexity (globals wf) then false
        else Complexity (globals wf))) /\
  LanguageFeatures (globals (Process demo_runtime (initial_world more_and_complexity)).2) =
    LanguageFeatures
      (globals (ProcessConstants demo_runtime (initial_world more_and_complexity)).2) /\
  LanguageFeatures (globals (Process demo_runtime (initial_world more_and_complexity)).2)
    !! "C" =
    ProcessLanguage (Complexity (globals (initial_world more_and_complexity))) demo_c /\
  Complexity (globals (Process demo_runtime (initial_world more_and_complexity)).2) =
    Complexity (globals (initial_world more_and_complexity)) &&
    negb (More (globals (initial_world more_and_complexity))).
Proof.
  apply (processFlags_frame demo_runtime (initial_world more_and_complexity)
           (ProcessConstants demo_runtime (initial_world more_and_complexity)).2
           demo_database "C" demo_c).
  - intros db. reflexivity.
  - reflexivity.
  - vm_compute. reflexivity.
  - reflexivity.
  - vm_compute. reflexivity.
Defined.

(** ** C10: the default root *)



(** ** Further properties of [ProcessConstants] *)





Lemma head_to_bytes v : head (to_bytes v) = string_index0 v.
Proof. now destruct v. Qed.

Lemma land_lor_keep_r b m x : Z.land b x = b -> Z.land b (Z.lor m x) = b.
Proof. rewrite Z.lor_comm. apply land_lor_keep. Qed.

Lemma category_covers c value lf cat tok b :
  ProcessLanguage c value = Some lf ->
  tok ∈ category_tokens cat value -> string_index0 tok = Some b ->
  Z.land b (category_mask cat lf) = b.
Proof.
  intros Hlf Hin Hb.
  destruct (category_mask_first_bytes _ _ _ cat Hlf) as [bs [-> Hbs]].
  apply or_bytes_covers. eauto.
Qed.

Lemma pair_call_opener ty v b :
  is_Some (pair_first v) ->
  head (call_path (pair_call ty v)) = Some b ->
  exists tok, v !! 0%nat = Some tok /\ string_index0 tok = Some b.
Proof.
  unfold pair_first, pair_call. simpl. intros [b' H] Hh.
  destruct (v !! 0%nat) as [v0|]; [|discriminate]. simpl in *.
  exists v0. split; [reflexivity|]. now rewrite <- head_to_bytes.
Qed.

(** Every insertion into the combined trie adds the path of a token of
    some category, which is not the complexity category when the flag is
    set. *)
Lemma Tokens_call_category c value lf call b :
  ProcessLanguage c value = Some lf ->
  call ∈ LanguageFeature.Tokens lf ->
  head (call_path call) = Some b ->
  exists cat tok,
    (c = true -> cat <> T_COMPLEXITY) /\
    tok ∈ category_tokens cat value /\ string_index0 tok = Some b.
Proof.
  intros Hlf Hin Hb.
  assert (Hcomp : compilable value) by (apply (ProcessLanguage_total c); eauto).
  destruct Hcomp as (_ & _ & Hm & Hq). rewrite Forall_forall in Hm, Hq.
  destruct (ProcessLanguage_Tokens _ _ _ Hlf) as [Htok _].
  rewrite Htok in Hin. rewrite !elem_of_app in Hin.
  destruct Hin as [Hin|[Hin|[Hin|Hin]]].
  - destruct c; [inversion Hin|].
    apply list_elem_of_fmap in Hin as [v [-> Hv]].
    exists T_COMPLEXITY, v. split; [discriminate|]. split; [exact Hv|].
    now rewrite <- head_to_bytes.
  - apply list_elem_of_fmap in Hin as [v [-> Hv]].
    exists T_SLCOMMENT, v. split; [discriminate|]. split; [exact Hv|].
    now rewrite <- head_to_bytes.
  - apply list_elem_of_fmap in Hin as [v [-> Hv]].
    destruct (pair_call_opener _ _ _ (Hm v Hv) Hb) as [tok [H0 Htokb]].
    exists T_MLCOMMENT, tok. split; [discriminate|]. split; [|exact Htokb].
    simpl. apply list_elem_of_omap. eauto.
  - apply list_elem_of_fmap in Hin as [v [-> Hv]].
    destruct (pair_call_opener _ _ _ (Hq v Hv) Hb) as [tok [H0 Htokb]].
    exists T_STRING, tok. split; [discriminate|]. split; [|exact Htokb].
    simpl. apply list_elem_of_omap. eauto.
Qed.

(** X2: after [ProcessConstants], the global mask of every language
    covers the first byte of every path inserted into its combined trie,
    under either value of the [Complexity] flag: a byte [b] that starts a
    token of [Tokens] satisfies [b AND ProcessMask = b]. *)
Theorem process_mask_covers_token_trie rt w w' db name value :
  range_ok (range_features rt) ->
  ProcessConstants rt w = (Ret tt, w') ->
  decoded_table rt = Success db ->
  db !! name = Some value ->
  exists lf,
    LanguageFeatures (globals w') !! name = Some lf /\
    forall call b,
      call ∈ LanguageFeature.Tokens lf ->
      head (call_path call) = Some b ->
      Z.land b (LanguageFeature.ProcessMask lf) = b.
Proof.
  intros Hok Hrun Hdb Hval.
  destruct (ProcessConstants_compiled _ _ _ _ _ _ Hok Hrun Hdb Hval)
    as [lf [Hlf Hcomp]].
  exists lf. split; [exact Hlf|]. intros call b Hin Hb.
  destruct (Tokens_call_category _ _ _ _ _ Hcomp Hin Hb)
    as (cat & tok & Hcat & Htok & Htokb).
  pose proof (category_covers _ _ _ cat tok b Hcomp Htok Htokb) as Hcov.
  rewrite (ProcessLanguage_ProcessMask _ _ _ Hcomp).
  destruct cat; simpl in Hcov.
  - now apply land_lor_keep_r.
  - now apply land_lor_keep, land_lor_keep, land_lor_keep_r.
  - now apply land_lor_keep, land_lor_keep_r.
  - destruct (Complexity (globals w)); [now destruct Hcat|].
    now apply land_lor_keep, land_lor_keep, land_lor_keep.
Qed.

Lemma process_mask_covers_token_trie_witness :
  exists lf,
    LanguageFeatures
      (globals (ProcessConstants demo_runtime (initial_world complexity_disabled)).2)
      !! "C" = Some lf /\
    forall call b,
      call ∈ LanguageFeature.Tokens lf ->
      head (call_path call) = Some b ->
      Z.land b (LanguageFeature.ProcessMask lf) = b.
Proof.
  apply (process_mask_covers_token_trie demo_runtime
           (initial_world complexity_disabled)
           (ProcessConstants demo_runtime (initial_world complexity_disabled)).2
           demo_database "C" demo_c).
  - intros db. reflexivity.
  - vm_compute. reflexivity.
  - reflexivity.
  - vm_compute. reflexivity.
Defined.

(** X3: the [Complexity] flag changes nothing of a language's features
    but the combined trie and the global mask: both compilations return
    or panic together, the four dedicated tries, the four category masks
    and the nesting flag agree, and the compilation under a false flag
    has the complexity insertions in front of the combined trie of the
    other and the complexity mask ORed into its global mask. *)
Theorem complexity_flag_changes_only_dispatch value :
  (is_Some (ProcessLanguage true value) <-> is_Some (ProcessLanguage false value)) /\
  forall off on,
    ProcessLanguage true value = Some off ->
    ProcessLanguage false value = Some on ->
    LanguageFeature.Complexity on = LanguageFeature.Complexity off /\
    LanguageFeature.SingleLineComments on = LanguageFeature.SingleLineComments off /\
    LanguageFeature.MultiLineComments on = LanguageFeature.MultiLineComments off /\
    LanguageFeature.Strings on = LanguageFeature.Strings off /\
    LanguageFeature.Nested on = LanguageFeature.Nested off /\
    LanguageFeature.ComplexityCheckMask on = LanguageFeature.ComplexityCheckMask off /\
    LanguageFeature.SingleLineCommentMask on = LanguageFeature.SingleLineCommentMask off /\
    LanguageFeature.MultiLineCommentMask on = LanguageFeature.MultiLineCommentMask off /\
    LanguageFeature.StringCheckMask on = LanguageFeature.StringCheckMask off /\
    LanguageFeature.Tokens on =
      LanguageFeature.Complexity on ++ LanguageFeature.Tokens off /\
    LanguageFeature.ProcessMask on =
      Z.lor (LanguageFeature.ComplexityCheckMask on) (LanguageFeature.ProcessMask off).
Proof.
  split.
  - rewrite <- !ProcessLanguage_total. reflexivity.
  - intros off on. rewrite !ProcessLanguage_closed_form.
    destruct (mapM string_index0 (Language.ComplexityChecks value)); [|discriminate].
    destruct (mapM string_index0 (Language.LineComment value)); [|discriminate].
    destruct (mapM pair_first (Language.MultiLine value)); [|discriminate].
    destruct (mapM pair_first (Language.Quotes value)); [|discriminate].
    simpl. intros Hoff Hon. inversion Hoff; inversion Hon; subst off on. simpl.
    repeat split; try reflexivity.
    rewrite <- !Z.lor_assoc. reflexivity.
Qed.

(** X4: the combined trie of every compiled language receives exactly
    the insertions of its dedicated tries, in the order complexity (only
    under a false [Complexity] flag), single-line comments, multi-line
    comments, strings; each dedicated trie has one insertion per token of
    its category. *)
Theorem token_trie_is_concatenation rt w w' db name value :
  range_ok (range_features rt) ->
  ProcessConstants rt w = (Ret tt, w') ->
  decoded_table rt = Success db ->
  db !! name = Some value ->
  exists lf,
    LanguageFeatures (globals w') !! name = Some lf /\
    LanguageFeature.Tokens lf =
      (if Complexity (globals w) then [] else LanguageFeature.Complexity lf) ++
      LanguageFeature.SingleLineComments lf ++
      LanguageFeature.MultiLineComments lf ++
      LanguageFeature.Strings lf /\
    length (LanguageFeature.Complexity lf) =
      length (Language.ComplexityChecks value) /\
    length (LanguageFeature.SingleLineComments lf) =
      length (Language.LineComment value) /\
    length (LanguageFeature.MultiLineComments lf) =
      length (Language.MultiLine value) /\
    length (LanguageFeature.Strings lf) = length (Language.Quotes value).
Proof.
  intros Hok Hrun Hdb Hval.
  destruct (ProcessConstants_compiled _ _ _ _ _ _ Hok Hrun Hdb Hval)
    as [lf [Hlf Hcomp]].
  exists lf. split; [exact Hlf|].
  rewrite ProcessLanguage_closed_form in Hcomp.
  destruct (mapM string_index0 (Language.ComplexityChecks value)); [|discriminate].
  destruct (mapM string_index0 (Language.LineComment value)); [|discriminate].
  destruct (mapM pair_first (Language.MultiLine value)); [|discriminate].
  destruct (mapM pair_first (Language.Quotes value)); [|discriminate].
  simpl in Hcomp. inversion Hcomp; subst lf. simpl.
  rewrite !length_fmap. repeat split; reflexivity.
Qed.

Lemma token_trie_is_concatenation_witness :
  exists lf,
    LanguageFeatures (globals (ProcessConstants demo_runtime w0).2) !! "C" = Some lf /\
    LanguageFeature.Tokens lf =
      (if Complexity (globals w0) then [] else LanguageFeature.Complexity lf) ++
      LanguageFeature.SingleLineComments lf ++
      LanguageFeature.MultiLineComments lf ++
      LanguageFeature.Strings lf /\
    length (LanguageFeature.Complexity lf) =
      length (Language.ComplexityChecks demo_c) /\
    length (LanguageFeature.SingleLineComments lf) =
      length (Language.LineComment demo_c) /\
    length (LanguageFeature.MultiLineComments lf) =
      length (Language.MultiLine demo_c) /\
    length (LanguageFeature.Strings lf) = length (Language.Quotes demo_c).
Proof.
  apply (token_trie_is_concatenation demo_runtime w0
           (ProcessConstants demo_runtime w0).2 demo_database "C" demo_c).
  - intros db. reflexivity.
  - vm_compute. reflexivity.
  - reflexivity.
  - vm_compute. reflexivity.
Defined.

Lemma extensions_after_app o1 o2 (m : gmap string string) :
  extensions_after (o1 ++ o2) m = extensions_after o2 (extensions_after o1 m).
Proof. unfold extensions_after. apply foldl_app. Qed.

(** X5: the last writer wins.  When the first loop of [ProcessConstants]
    enumerates the table as [before ++ (name, value) :: after], [value]
    declares the extension and no language of [after] does, the extension
    resolves to [name], whatever [before] holds and whatever the
    extension resolved to earlier. *)
Theorem extension_resolves_to_last_declaring rt w w' db before name value after ext :
  ProcessConstants rt w = (Ret tt, w') ->
  decoded_table rt = Success db ->
  range_extensions rt db = before ++ (name, value) :: after ->
  ext ∈ Language.Extensions value ->
  (forall e, e ∈ after -> ext ∉ Language.Extensions e.2) ->
  ExtensionToLanguage (globals w') !! ext = Some name.
Proof.
  intros Hrun Hdb Horder Hdecl Hafter.
  apply ProcessConstants_Ret in Hrun as [db' [Hdb' [_ ->]]].
  rewrite Hdb in Hdb'. inversion Hdb'; subst db'. simpl.
  rewrite Horder, extensions_after_app, extensions_after_cons.
  rewrite extensions_after_undeclared by exact Hafter.
  rewrite extension_inner_lookup. simpl.
  now rewrite decide_True.
Qed.

Lemma extension_resolves_to_last_declaring_witness :
  ExtensionToLanguage (globals (ProcessConstants demo_runtime w0).2) !! "h" = Some "C".
Proof.
  apply (extension_resolves_to_last_declaring demo_runtime w0
           (ProcessConstants demo_runtime w0).2 demo_database
           [("C Header", demo_h)] "C" demo_c [] "h").
  - vm_compute. reflexivity.
  - reflexivity.
  - vm_compute. reflexivity.
  - right. left.
  - intros e He. inversion He.
Defined.

Lemma extensions_after_declared order ext : forall m : gmap string string,
  (exists e, e ∈ order /\ ext ∈ Language.Extensions e.2) ->
  exists e,
    e ∈ order /\ ext ∈ Language.Extensions e.2 /\
    extensions_after order m !! ext = Some e.1.
Proof.
  induction order as [|e order IH]; intros m [e' [He' Hdecl]].
  - inversion He'.
  - rewrite extensions_after_cons.
    destruct (decide (Exists (fun e => ext ∈ Language.Extensions e.2) order))
      as [Hex|Hnex].
    + apply Exists_exists in Hex.
      destruct (IH (foldl (fun m ext => <[ext := e.1]> m) m
                      (Language.Extensions e.2)) Hex) as (e0 & He0 & Hd0 & Hl0).
      exists e0. split; [now right | split; [exact Hd0 | exact Hl0]].
    + assert (Hnone : forall e0, e0 ∈ order -> ext ∉ Language.Extensions e0.2).
      { intros e0 He0 Hin. apply Hnex, Exists_exists. eauto. }
      apply elem_of_cons in He' as [->|He']; [|now destruct (Hnone e' He')].
      exists e. split; [left | split; [exact Hdecl|]].
      rewrite extensions_after_undeclared by exact Hnone.
      rewrite extension_inner_lookup. now rewrite decide_True.
Qed.

(** X6: after [ProcessConstants], an extension that some language of the
    table declares resolves to a language of the table that declares it,
    and an extension that no language declares resolves as it did before
    the call: entries are overwritten or added, never removed. *)
Theorem declared_extensions_resolve rt w w' db :
  range_ok (range_extensions rt) ->
  ProcessConstants rt w = (Ret tt, w') ->
  decoded_table rt = Success db ->
  (forall name value ext,
     db !! name = Some value -> ext ∈ Language.Extensions value ->
     exists name' value',
       ExtensionToLanguage (globals w') !! ext = Some name' /\
       db !! name' = Some value' /\ ext ∈ Language.Extensions value') /\
  (forall ext,
     (forall name value, db !! name = Some value ->
        ext ∉ Language.Extensions value) ->
     ExtensionToLanguage (globals w') !! ext =
       ExtensionToLanguage (globals w) !! ext).
Proof.
  intros Hok Hrun Hdb.
  apply ProcessConstants_Ret in Hrun as [db' [Hdb' [_ ->]]].
  rewrite Hdb in Hdb'. inversion Hdb'; subst db'. simpl. split.
  - intros name value ext Hval Hdecl.
    destruct (extensions_after_declared (range_extensions rt db) ext
                (ExtensionToLanguage (globals w))) as ([n v] & Hin & Hd & Hl).
    { exists (name, value). split; [|exact Hdecl].
      now apply (range_ok_elem _ db name value Hok). }
    exists n, v. split; [exact Hl|]. split; [|exact Hd].
    now apply (range_ok_elem _ db n v Hok).
  - intros ext Hnone. apply extensions_after_undeclared.
    intros [n v] Hin. apply (Hnone n).
    now apply (range_ok_elem _ db n v Hok).
Qed.

Lemma declared_extensions_resolve_witness :
  (forall name value ext,
     demo_database !! name = Some value -> ext ∈ Language.Extensions value ->
     exists name' value',
       ExtensionToLanguage (globals (ProcessConstants demo_runtime w0).2) !! ext
         = Some name' /\
       demo_database !! name' = Some value' /\ ext ∈ Language.Extensions value') /\
  (forall ext,
     (forall name value, demo_database !! name = Some value ->
        ext ∉ Language.Extensions value) ->
     ExtensionToLanguage (globals (ProcessConstants demo_runtime w0).2) !! ext =
       ExtensionToLanguage (globals w0) !! ext).
Proof.
  apply (declared_extensions_resolve demo_runtime w0
           (ProcessConstants demo_runtime w0).2 demo_database).
  - intros db. reflexivity.
  - vm_compute. reflexivity.
  - reflexivity.
Defined.

Lemma set_LanguageFeatures_cong a b G g :
  set_LanguageFeatures a G = set_LanguageFeatures b g ->
  forall c, set_LanguageFeatures c G = set_LanguageFeatures c g.
Proof. destruct G, g. simpl. intros H c. inversion H. reflexivity. Qed.

Lemma feature_loop_frame order : forall w r w',
  forM_ order feature_body w = (r, w') ->
  set_LanguageFeatures (LanguageFeatures (globals w)) (globals w') = globals w /\
  events w' = events w.
Proof.
  induction order as [|[name value] order IH]; intros w r w' H; simpl in H.
  - unfold ret in H. inversion H; subst.
    split; [apply set_LanguageFeatures_id | reflexivity].
  - unfold bind at 1 in H. unfold feature_body at 1, bind, gets, checked in H.
    destruct (ProcessLanguage (Complexity (globals w)) value) as [lf|].
    + unfold ret, modify in H. simpl in H.
      apply IH in H as [Hg He]. simpl in Hg, He. split; [|exact He].
      rewrite (set_LanguageFeatures_cong _ _ _ _ Hg).
      apply set_LanguageFeatures_id.
    + unfold panic in H. inversion H; subst.
      split; [apply set_LanguageFeatures_id | reflexivity].
Qed.

Lemma ProcessConstants_via_loop rt db w :
  decoded_table rt = Success db ->
  ProcessConstants rt w =
    match
      forM_ (range_features rt db) feature_body
        (mkWorld
           (set_ExtensionToLanguage
              (extensions_after (range_extensions rt db)
                 (ExtensionToLanguage (globals w))) (globals w))
           (events w ++
            trace_events (Trace (globals w))
              [EvPrintTrace "milliseconds unmarshal: %d";
               EvPrintTrace "nanoseconds build extension to language: %d"]))
    with
    | (Ret _, w2) =>
        (Ret tt,
         mkWorld (globals w2)
           (events w2 ++
            trace_events (Trace (globals w2))
              [EvPrintTrace "milliseconds build language features: %d"]))
    | (Panic p, w2) => (Panic p, w2)
    end.
Proof.
  intros Hdb. rewrite ProcessConstants_unfold.
  unfold bind at 1. rewrite (loadDatabase_Success _ _ _ Hdb).
  unfold bind at 1. rewrite extension_loop_run. simpl.
  unfold bind at 1, gets at 1. simpl.
  unfold bind at 1.
  destruct w as [g evs]. simpl.
  destruct (Trace g) eqn:Ht; simpl; unfold emit, ret; simpl;
    unfold bind at 1; rewrite <- ?app_assoc, ?app_nil_r; simpl;
    match goal with
    | |- context [forM_ ?o feature_body ?w1] =>
        destruct (forM_ o feature_body w1) as [[[]|p] w2]
    end; try reflexivity;
    unfold bind, gets, when; simpl;
    destruct (Trace (globals w2)); simpl; unfold emit, ret; simpl;
    rewrite ?app_nil_r, ?world_eta; reflexivity.
Qed.

Lemma set_tables_commute a b g :
  set_LanguageFeatures a (set_ExtensionToLanguage b g) =
  set_ExtensionToLanguage b (set_LanguageFeatures a g).
Proof. reflexivity. Qed.

Lemma set_ExtensionToLanguage_twice a b g :
  set_ExtensionToLanguage a (set_ExtensionToLanguage b g) =
  set_ExtensionToLanguage a g.
Proof. reflexivity. Qed.

Lemma prints_only_trace t evs :
  made_channels (trace_events t (EvPrintTrace <$> evs)) = [] /\
  goroutines (trace_events t (EvPrintTrace <$> evs)) = [] /\
  printed (trace_events t (EvPrintTrace <$> evs)) = [] /\
  written (trace_events t (EvPrintTrace <$> evs)) = [].
Proof.
  destruct t; simpl; [|repeat split; reflexivity].
  induction evs as [|e evs IH]; simpl; [repeat split; reflexivity | exact IH].
Qed.

(** X7: [ProcessConstants], whether it returns or panics, changes no
    package variable other than [ExtensionToLanguage] and
    [LanguageFeatures]; it makes no channel, starts no goroutine, prints
    no line of output and writes no file, and with [Trace] off it emits
    nothing at all. *)
Theorem ProcessConstants_changes_only_tables rt w :
  set_LanguageFeatures (LanguageFeatures (globals w))
    (set_ExtensionToLanguage (ExtensionToLanguage (globals w))
       (globals (ProcessConstants rt w).2)) = globals w /\
  made_channels (events (ProcessConstants rt w).2) = made_channels (events w) /\
  goroutines (events (ProcessConstants rt w).2) = goroutines (events w) /\
  printed (events (ProcessConstants rt w).2) = printed (events w) /\
  written (events (ProcessConstants rt w).2) = written (events w) /\
  (Trace (globals w) = false -> events (ProcessConstants rt w).2 = events w).
Proof.
  destruct (decoded_table rt) as [db|err] eqn:Hdb.
  - rewrite (ProcessConstants_via_loop _ _ _ Hdb).
    match goal with
    | |- context [forM_ ?o feature_body ?w1] =>
        destruct (forM_ o feature_body w1) as [r w2] eqn:Hloop
    end.
    apply feature_loop_frame in Hloop as [Hg He]. simpl in Hg, He.
    assert (Hglob :
      set_LanguageFeatures (LanguageFeatures (globals w))
        (set_ExtensionToLanguage (ExtensionToLanguage (globals w)) (globals w2))
      = globals w).
    { rewrite set_tables_commute, Hg, set_ExtensionToLanguage_twice.
      apply set_ExtensionToLanguage_id. }
    assert (Htrace : Trace (globals w2) = Trace (globals w)).
    { exact (f_equal Trace Hglob). }
    pose proof (prints_only_trace (Trace (globals w))
      ["milliseconds unmarshal: %d";
       "nanoseconds build extension to language: %d"]) as (P1 & P2 & P3 & P4).
    pose proof (prints_only_trace (Trace (globals w))
      ["milliseconds build language features: %d"]) as (Q1 & Q2 & Q3 & Q4).
    simpl in P1, P2, P3, P4, Q1, Q2, Q3, Q4.
    destruct r as [[]|p]; simpl; rewrite ?Htrace, He;
      (split; [exact Hglob|]);
      unfold made_channels, goroutines, printed, written in *;
      rewrite ?omap_app, ?P1, ?P2, ?P3, ?P4, ?Q1, ?Q2, ?Q3, ?Q4, ?app_nil_r;
      repeat split; try reflexivity;
      intros ->; simpl; now rewrite ?app_nil_r.
  - destruct (loadDatabase_Failure rt err w Hdb) as [msg Hload].
    assert (H : ProcessConstants rt w = (Panic (PanicMessage msg), w)).
    { unfold ProcessConstants, bind at 1. rewrite Hload. reflexivity. }
    rewrite H. simpl.
    rewrite set_ExtensionToLanguage_id, set_LanguageFeatures_id.
    repeat split; reflexivity.
Qed.

(** X8: the feature table does not depend on the order in which the
    runtime enumerates the database.  Two runs of [ProcessConstants] on
    the same table from the same state leave the same [LanguageFeatures],
    and a second run after the first leaves them as they were, also on a
    table whose languages share extensions. *)
Theorem feature_table_order_independent rt1 rt2 db w w1 w2 :
  range_ok (range_features rt1) ->
  range_ok (range_features rt2) ->
  decoded_table rt1 = Success db ->
  decoded_table rt2 = Success db ->
  ProcessConstants rt1 w = (Ret tt, w1) ->
  ProcessConstants rt2 w = (Ret tt, w2) ->
  LanguageFeatures (globals w1) = LanguageFeatures (globals w2) /\
  (forall w3,
     ProcessConstants rt2 w1 = (Ret tt, w3) ->
     LanguageFeatures (globals w3) = LanguageFeatures (globals w1)).
Proof.
  intros Hr1 Hr2 Hd1 Hd2 Hrun1 Hrun2.
  assert (Hlook : forall rt w w' name,
    range_ok (range_features rt) -> decoded_table rt = Success db ->
    ProcessConstants rt w = (Ret tt, w') ->
    LanguageFeatures (globals w') !! name =
      match db !! name with
      | Some value => ProcessLanguage (Complexity (globals w)) value
      | None => LanguageFeatures (globals w) !! name
      end).
  { intros rt wa wb name Hr Hd Hrun.
    destruct (db !! name) as [value|] eqn:Hval.
    - destruct (ProcessConstants_compiled _ _ _ _ _ _ Hr Hrun Hd Hval)
        as [lf [Hlf Hcomp]]. congruence.
    - apply ProcessConstants_Ret in Hrun as [db' [Hdb' [_ ->]]].
      rewrite Hd in Hdb'. inversion Hdb'; subst db'. simpl.
      apply features_after_other. intros Hin.
      apply list_elem_of_fmap in Hin as [[n v] [-> Hin]].
      apply (range_ok_elem _ db n v Hr) in Hin. simpl in Hval. congruence. }
  assert (Hc : Complexity (globals w1) = Complexity (globals w)).
  { apply ProcessConstants_Ret in Hrun1 as [db' [_ [_ ->]]]. reflexivity. }
  split.
  - apply map_eq. intros name.
    rewrite (Hlook rt1 w w1 name Hr1 Hd1 Hrun1).
    rewrite (Hlook rt2 w w2 name Hr2 Hd2 Hrun2). reflexivity.
  - intros w3 Hrun3. apply map_eq. intros name.
    rewrite (Hlook rt2 w1 w3 name Hr2 Hd2 Hrun3), Hc.
    rewrite (Hlook rt1 w w1 name Hr1 Hd1 Hrun1).
    destruct (db !! name); reflexivity.
Qed.

Lemma feature_table_order_independent_witness :
  LanguageFeatures (globals (ProcessConstants demo_runtime w0).2) =
  LanguageFeatures (globals (ProcessConstants (reversed demo_runtime) w0).2) /\
  (forall w3,
     ProcessConstants (reversed demo_runtime) (ProcessConstants demo_runtime w0).2
       = (Ret tt, w3) ->
     LanguageFeatures (globals w3) =
     LanguageFeatures (globals (ProcessConstants demo_runtime w0).2)).
Proof.
  apply (feature_table_order_independent demo_runtime (reversed demo_runtime)
           demo_database w0).
  - intros db. reflexivity.
  - intros db. simpl. apply reverse_Permutation.
  - reflexivity.
  - reflexivity.
  - vm_compute. reflexivity.
  - vm_compute. reflexivity.
Defined.

(** X9: after [ProcessConstants] the languages with compiled features
    are those that had them before together with the languages of the
    table. *)
Theorem feature_table_keys rt w w' db :
  range_ok (range_features rt) ->
  ProcessConstants rt w = (Ret tt, w') ->
  decoded_table rt = Success db ->
  dom (LanguageFeatures (globals w')) =
    dom (LanguageFeatures (globals w)) ∪ dom db.
Proof.
  intros Hok Hrun Hdb. apply set_eq. intros name.
  rewrite elem_of_union, !elem_of_dom.
  destruct (db !! name) as [value|] eqn:Hval.
  - destruct (ProcessConstants_compiled _ _ _ _ _ _ Hok Hrun Hdb Hval)
      as [lf [Hlf _]]. rewrite Hlf. split; eauto.
  - apply ProcessConstants_Ret in Hrun as [db' [Hdb' [_ ->]]].
    rewrite Hdb in Hdb'. inversion Hdb'; subst db'. simpl.
    rewrite features_after_other.
    + split; [now left|]. intros [H|[x H]]; [exact H | discriminate].
    + intros Hin. apply list_elem_of_fmap in Hin as [[n v] [-> Hin]].
      apply (range_ok_elem _ db n v Hok) in Hin. simpl in Hval. congruence.
Qed.

Lemma feature_table_keys_witness :
  dom (LanguageFeatures (globals (ProcessConstants demo_runtime w0).2)) =
    dom (LanguageFeatures (globals w0)) ∪ dom demo_database.
Proof.
  apply (feature_table_keys demo_runtime w0
           (ProcessConstants demo_runtime w0).2 demo_database).
  - intros db. reflexivity.
  - vm_compute. reflexivity.
  - reflexivity.
Defined.

(** ** Further properties of [Process] and [processFlags] *)

Lemma emit_loop_run {A} (f : A -> Event) (l : list A) : forall w,
  forM_ l (fun x => emit (f x)) w =
    (Ret tt, mkWorld (globals w) (events w ++ (f <$> l))).
Proof.
  induction l as [|x l IH]; intros w; simpl.
  - unfold ret. now rewrite app_nil_r, world_eta.
  - unfold bind, emit at 1. rewrite IH. simpl. now rewrite <- app_assoc.
Qed.

Lemma printLanguages_run rt db w :
  decoded_table rt = Success db ->
  printLanguages rt w =
    (Ret tt,
     mkWorld (globals w)
       ((events w ++
         trace_events (Trace (globals w)) [EvPrintTrace "milliseconds unmarshal: %d"]) ++
        ((fun name => EvPrintln (language_line db name)) <$>
           sort_Slice_lower rt ((range_names rt db).*1)))).
Proof.
  intros Hdb. unfold printLanguages, bind.
  rewrite (loadDatabase_Success _ _ _ Hdb).
  exact (emit_loop_run (fun name => EvPrintln (language_line db name)) _ _).
Qed.

Lemma observe_printlns (lines : list string) :
  made_channels (EvPrintln <$> lines) = [] /\
  goroutines (EvPrintln <$> lines) = [] /\
  written (EvPrintln <$> lines) = [] /\
  printed (EvPrintln <$> lines) = lines.
Proof.
  induction lines as [|x lines (I1 & I2 & I3 & I4)];
    [repeat split; reflexivity|].
  repeat split; try assumption.
  change (x :: printed (EvPrintln <$> lines) = x :: lines). now rewrite I4.
Qed.

(** X10: in listing mode ([Languages] set) on a table that decodes,
    [Process] prints one line per language of the table, in the order the
    sort leaves the names in, and returns: it changes no package variable
    (the tables are not compiled), makes no channel, starts no goroutine
    and writes no file. *)
Theorem listing_mode_only_prints rt db w :
  Languages (globals w) = true ->
  decoded_table rt = Success db ->
  range_ok (range_names rt) ->
  (forall l, sort_Slice_lower rt l ≡ₚ l) ->
  exists w' lines,
    Process rt w = (Ret tt, w') /\
    globals w' = globals w /\
    printed (events w') = printed (events w) ++ lines /\
    lines ≡ₚ language_line db <$> (map_to_list db).*1 /\
    made_channels (events w') = made_channels (events w) /\
    goroutines (events w') = goroutines (events w) /\
    written (events w') = written (events w).
Proof.
  intros HL Hdb Hok Hsort.
  eexists _, (language_line db <$> sort_Slice_lower rt ((range_names rt db).*1)).
  split.
  { unfold Process, bind at 1, gets at 1. rewrite HL.
    apply (printLanguages_run _ _ _ Hdb). }
  cbn [globals events].
  pose proof (prints_only_trace (Trace (globals w)) ["milliseconds unmarshal: %d"])
    as (P1 & P2 & P3 & P4). simpl in P1, P2, P3, P4.
  pose proof (observe_printlns
    (language_line db <$> sort_Slice_lower rt ((range_names rt db).*1)))
    as (L1 & L2 & L3 & L4).
  rewrite <- list_fmap_compose in L1, L2, L3, L4.
  split; [reflexivity|].
  unfold printed, made_channels, goroutines, written in *.
  rewrite !omap_app, P1, P2, P3, P4, !app_nil_r.
  unfold compose in *. rewrite L1, L2, L3, L4, !app_nil_r.
  repeat split; try reflexivity.
  now rewrite Hsort, (Hok db).
Qed.

Lemma listing_mode_only_prints_witness :
  exists w' lines,
    Process demo_runtime (initial_world listing_globals) = (Ret tt, w') /\
    globals w' = globals (initial_world listing_globals) /\
    printed (events w') = printed (events (initial_world listing_globals)) ++ lines /\
    lines ≡ₚ language_line demo_database <$> (map_to_list demo_database).*1 /\
    made_channels (events w') =
      made_channels (events (initial_world listing_globals)) /\
    goroutines (events w') = goroutines (events (initial_world listing_globals)) /\
    written (events w') = written (events (initial_world listing_globals)).
Proof.
  apply (listing_mode_only_prints demo_runtime demo_database
           (initial_world listing_globals)).
  - reflexivity.
  - reflexivity.
  - intros db. reflexivity.
  - intros l. reflexivity.
Defined.

Lemma Process_pipeline_negative_size rt w :
  FileListQueueSize (globals w) < 0 \/
  FileReadContentJobQueueSize (globals w) < 0 \/
  FileSummaryJobQueueSize (globals w) < 0 ->
  exists w',
    Process_pipeline rt w = (Panic PanicMakeChanSize, w') /\
    goroutines (events w') = goroutines (events w) /\
    summarized (events w') = summarized (events w) /\
    printed (events w') = printed (events w) /\
    written (events w') = written (events w).
Proof.
  destruct w as [g evs]. simpl. intros Hneg.
  unfold Process_pipeline.
  unfold bind, gets, when, modify, emit, ret, checked, make_chan, panic.
  simpl.
  unfold goroutines, summarized, printed, written.
  destruct (DirFilePaths g) as [|p rest] eqn:Hp; simpl;
    destruct (Debug g) eqn:HD; simpl; rewrite ?HD; simpl;
    destruct (FileListQueueSize g <? 0)%Z eqn:H1; simpl;
    try (eexists; split; [reflexivity|]; simpl;
         rewrite ?omap_app; simpl; rewrite ?app_nil_r; repeat split; reflexivity);
    destruct (FileReadContentJobQueueSize g <? 0)%Z eqn:H2; simpl;
    try (eexists; split; [reflexivity|]; simpl;
         rewrite ?omap_app; simpl; rewrite ?app_nil_r; repeat split; reflexivity);
    destruct (FileSummaryJobQueueSize g <? 0)%Z eqn:H3; simpl;
    try (eexists; split; [reflexivity|]; simpl;
         rewrite ?omap_app; simpl; rewrite ?app_nil_r; repeat split; reflexivity);
    apply Z.ltb_ge in H1, H2, H3; lia.
Qed.

(** X11: when one of the three queue sizes that [Process] uses is
    negative, a [Process] whose tables compile panics at the making of
    the queue: no goroutine is started, the summarizer is not called,
    nothing is printed with [fmt.Println] and no file is written, while
    the compiled tables stay in place. *)
Theorem negative_queue_size_panics rt g w1 :
  Languages g = false ->
  ProcessConstants rt (initial_world g) = (Ret tt, w1) ->
  FileListQueueSize g < 0 \/ FileReadContentJobQueueSize g < 0 \/
    FileSummaryJobQueueSize g < 0 ->
  exists w',
    Process rt (initial_world g) = (Panic PanicMakeChanSize, w') /\
    goroutines (events w') = [] /\
    summarized (events w') = [] /\
    printed (events w') = [] /\
    written (events w') = [] /\
    LanguageFeatures (globals w') = LanguageFeatures (globals w1).
Proof.
  intros HL Hrun Hneg.
  rewrite (Process_after_constants rt (initial_world g) w1 HL Hrun).
  pose proof (Process_pipeline_frame rt
    (mkWorld (processFlags_globals (globals w1))
       (events w1 ++ trace_events (Debug (globals w1))
          (processFlags_debug (processFlags_globals (globals w1))))))
    as (HLF & _ & _).
  destruct (Process_pipeline_negative_size rt
    (mkWorld (processFlags_globals (globals w1))
       (events w1 ++ trace_events (Debug (globals w1))
          (processFlags_debug (processFlags_globals (globals w1))))))
    as (w' & Hpipe & Hgo & Hsum & Hpr & Hwr).
  { apply ProcessConstants_Ret in Hrun as [db [_ [_ ->]]].
    unfold processFlags_globals. simpl.
    destruct (More g && Complexity g); simpl; exact Hneg. }
  rewrite Hpipe in HLF. simpl in HLF, Hgo, Hsum, Hpr, Hwr.
  exists w'. split; [exact Hpipe|].
  rewrite Hgo, Hsum, Hpr, Hwr, HLF, processFlags_globals_LanguageFeatures.
  apply ProcessConstants_Ret in Hrun as [db [_ [_ ->]]]. simpl.
  unfold goroutines, summarized, printed, written, ProcessConstants_trace.
  rewrite !omap_app.
  destruct (Trace g), (Debug g); simpl; repeat split; reflexivity.
Qed.

Lemma negative_queue_size_panics_witness :
  exists w',
    Process demo_runtime (initial_world negative_size_globals) =
      (Panic PanicMakeChanSize, w') /\
    goroutines (events w') = [] /\
    summarized (events w') = [] /\
    printed (events w') = [] /\
    written (events w') = [] /\
    LanguageFeatures (globals w') =
      LanguageFeatures
        (globals (ProcessConstants demo_runtime (initial_world negative_size_globals)).2).
Proof.
  apply (negative_queue_size_panics demo_runtime negative_size_globals
           (ProcessConstants demo_runtime (initial_world negative_size_globals)).2).
  - reflexivity.
  - vm_compute. reflexivity.
  - right. left. vm_compute. reflexivity.
Defined.





(** X14: [processFlags] always returns; after it the wide mode implies
    that the complexity calculation is on ([More] set leaves [Complexity]
    clear); a second call changes no package variable; and with [Debug]
    off it emits nothing. *)
Theorem wide_mode_forces_complexity w :
  (processFlags w).1 = Ret tt /\
  (More (globals (processFlags w).2) = true ->
   Complexity (globals (processFlags w).2) = false) /\
  globals (processFlags (processFlags w).2).2 = globals (processFlags w).2 /\
  (Debug (globals w) = false -> events (processFlags w).2 = events w).
Proof.
  rewrite !processFlags_run. simpl.
  split; [reflexivity|].
  unfold processFlags_globals.
  destruct (More (globals w)) eqn:Hm, (Complexity (globals w)) eqn:Hc; simpl;
    rewrite ?Hm, ?Hc; simpl; repeat split; try reflexivity; try discriminate;
    intros ->; simpl; apply app_nil_r.
Qed.

Lemma wide_mode_forces_complexity_witness :
  Complexity (globals (processFlags (initial_world more_and_complexity)).2) = false.
Proof.
  apply (proj1 (proj2 (wide_mode_forces_complexity
                         (initial_world more_and_complexity)))).
  reflexivity.
Defined.

(** ** [ConfigureGc] *)

Lemma to_int32_small n : - 2 ^ 31 <= n < 2 ^ 31 -> to_int32 n = n.
Proof. intros H. unfold to_int32. rewrite Z.mod_small; lia. Qed.

Lemma set_gcPercent_id g : set_gcPercent (gcPercent g) g = g.
Proof. now destruct g. Qed.

Lemma ConfigureGc_run current g :
  -1 <= gcPercent g < 2 ^ 31 ->
  ConfigureGc (current, g) = (gcPercent g, set_gcPercent current g).
Proof.
  intros Hg. unfold ConfigureGc, debug_SetGCPercent.
  rewrite to_int32_small by lia.
  destruct (gcPercent g <? 0)%Z eqn:Hlt; [|reflexivity].
  apply Z.ltb_lt in Hlt. f_equal. lia.
Qed.

(** X15: [ConfigureGc] exchanges the package's [gcPercent] with the
    collector's setting, so a second call undoes the first: for settings
    of at least -1 that fit an [int32], the collector runs at the
    package's percentage after one call, the package holds the
    collector's previous percentage, and after two calls both are as they
    were. *)
Theorem ConfigureGc_twice_restores current g :
  -1 <= current < 2 ^ 31 ->
  -1 <= gcPercent g < 2 ^ 31 ->
  (ConfigureGc (current, g)).1 = gcPercent g /\
  gcPercent (ConfigureGc (current, g)).2 = current /\
  ConfigureGc (ConfigureGc (current, g)) = (current, g).
Proof.
  intros Hc Hg. rewrite (ConfigureGc_run _ _ Hg).
  split; [reflexivity|]. split; [reflexivity|].
  rewrite ConfigureGc_run by exact Hc.
  f_equal. now destruct g.
Qed.

Lemma ConfigureGc_twice_restores_witness :
  (ConfigureGc (100, initial_globals 4)).1 = gcPercent (initial_globals 4) /\
  gcPercent (ConfigureGc (100, initial_globals 4)).2 = 100 /\
  ConfigureGc (ConfigureGc (100, initial_globals 4)) = (100, initial_globals 4).
Proof.
  apply (ConfigureGc_twice_restores 100 (initial_globals 4)).
  - vm_compute. split; [discriminate | reflexivity].
  - vm_compute. split; [discriminate | reflexivity].
Defined.

Lemma complexity_flag_changes_only_dispatch_witness :
  exists off on,
    ProcessLanguage true demo_c = Some off /\
    ProcessLanguage false demo_c = Some on /\
    LanguageFeature.Tokens on =
      LanguageFeature.Complexity on ++ LanguageFeature.Tokens off /\
    LanguageFeature.ProcessMask on =
      Z.lor (LanguageFeature.ComplexityCheckMask on) (LanguageFeature.ProcessMask off).
Proof.
  eexists _, _. split; [vm_compute; reflexivity|].
  split; [vm_compute; reflexivity|].
  apply (proj2 (complexity_flag_changes_only_dispatch demo_c)); vm_compute; reflexivity.
Defined.

(** X16: on a table in which no extension is declared by two different
    languages, starting from an empty [ExtensionToLanguage], an extension
    resolves to a language exactly when that language of the table
    declares it. *)
Theorem extension_lookup_matches_table rt w w' db :
  range_ok (range_extensions rt) ->
  unambiguous db ->
  ExtensionToLanguage (globals w) = ∅ ->
  ProcessConstants rt w = (Ret tt, w') ->
  decoded_table rt = Success db ->
  forall ext name,
    ExtensionToLanguage (globals w') !! ext = Some name <->
    exists value, db !! name = Some value /\ ext ∈ Language.Extensions value.
Proof.
  intros Hok Hun Hempty Hrun Hdb ext name.
  apply ProcessConstants_Ret in Hrun as [db' [Hdb' [_ ->]]].
  rewrite Hdb in Hdb'. inversion Hdb'; subst db'. simpl. rewrite Hempty. split.
  - intros H. apply extensions_after_value in H as [H|[value [Hin Hdecl]]].
    + rewrite lookup_empty in H. discriminate.
    + exists value. split; [|exact Hdecl].
      now apply (range_ok_elem _ db name value Hok).
  - intros [value [Hval Hdecl]]. apply extensions_after_owner.
    + intros [n v] Hin Hd. simpl in *.
      apply (range_ok_elem _ db n v Hok) in Hin. eapply Hun; eauto.
    + exists (name, value). split; [|exact Hdecl].
      now apply (range_ok_elem _ db name value Hok).
Qed.

Lemma extension_lookup_matches_table_witness :
  ExtensionToLanguage
    (globals (ProcessConstants (with_database disjoint_database demo_runtime) w0).2)
    !! "c" = Some "C" <->
  exists value,
    disjoint_database !! "C" = Some value /\ "c" ∈ Language.Extensions value.
Proof.
  apply (extension_lookup_matches_table
           (with_database disjoint_database demo_runtime) w0
           (ProcessConstants (with_database disjoint_database demo_runtime) w0).2
           disjoint_database).
  - intros db. reflexivity.
  - exact disjoint_database_unambiguous.
  - reflexivity.
  - vm_compute. reflexivity.
  - reflexivity.
Defined.
